(** * Record stores of the Big-Data-Analytics-Lab scripts

  A shallow embedding of the three CRUD layers of the repository:

  - [RedisSDFS]: class [AdobeSDFS] and the wrappers of
    [BDA Course Assigment 1/crud.py] (XDM records kept in one Redis hash);
  - [FileSDFS]: class [AdobeSDFS] of [BDA Course Assigment 1/main.py]
    (files copied into a storage directory, indexed by an in-process dict);
  - [Mongo]: the functions of [lab3/crud.py] (documents of one MongoDB
    collection).

  Whatever the scripts read from their environment is an explicit argument
  of the embedded function: the hexadecimal token of [uuid.uuid4()], the
  readings of the wall clock, the outcome of a file copy or of an unlink,
  the place a Redis hash gives to a new field.

  Strings are sequences of the code points U+0000 to U+00FF. Integers are
  unbounded, as in Python; where a library bounds them (BSON has 64 bits)
  the bound is part of the embedded function. *)

From Stdlib Require Import String Ascii ZArith Lia List.
From stdpp Require Import base option strings gmap list.

Local Open Scope string_scope.
Local Open Scope list_scope.

(** ** Python strings

  Characters are the code points U+0000 to U+00FF. *)

Module PyStr.

(** [str.isspace] on one character of that range. *)
Definition isspace (c : ascii) : bool :=
  let n := N_of_ascii c in
  ((9 <=? n) && (n <=? 13) || (28 <=? n) && (n <=? 32)
   || (n =? 133) || (n =? 160))%N.

(** [parts[0] if parts else ""] and [parts[-1] if len(parts) > 1 else ""]. *)
Definition first_or_empty (parts : list string) : string := hd "" parts.

Definition last_or_empty (parts : list string) : string :=
  if (1 <? length parts)%nat then List.last parts "" else "".

(** [s.split()]: the maximal runs of non-blank characters. [cur] is the run
    being read. *)
Fixpoint split_from (cur : string) (s : string) : list string :=
  match s with
  | EmptyString => if decide (cur = "") then [] else [cur]
  | String c s' =>
      if isspace c
      then (if decide (cur = "") then split_from "" s'
            else cur :: split_from "" s')
      else split_from (cur +:+ String c "") s'
  end.

Definition split (s : string) : list string := split_from "" s.

Fixpoint lstrip (s : string) : string :=
  match s with
  | EmptyString => ""
  | String c s' => if isspace c then lstrip s' else s
  end.

Definition rstrip (s : string) : string :=
  string_of_list_ascii
    (rev (list_ascii_of_string
            (lstrip (string_of_list_ascii (rev (list_ascii_of_string s)))))).

Definition strip (s : string) : string := rstrip (lstrip s).

(** [s[:n]] for [0 <= n]. *)
Definition prefix (n : nat) (s : string) : string := String.substring 0 n s.

(** [x or ""] for an optional string. *)
Definition or_empty (x : option string) : string := default "" x.

End PyStr.

(** ** Keyed sequences

  Both the Python dict of [main.py] and the Redis hash of [crud.py] are
  enumerated by the code, so they are kept as sequences of key/value pairs
  in enumeration order. *)

Section Assoc.
Context {K V : Type} `{EqDecision K}.

Implicit Types (l : list (K * V)) (k : K) (v : V).

Fixpoint aget k l : option V :=
  match l with
  | [] => None
  | (k', v') :: t => if decide (k = k') then Some v' else aget k t
  end.

(** Overwrite the value held under [k], keeping its place. *)
Fixpoint areplace k v l : list (K * V) :=
  match l with
  | [] => []
  | (k', v') :: t =>
      if decide (k = k') then (k, v) :: t else (k', v') :: areplace k v t
  end.

(** Store [v] under [k]: in place when [k] is present, otherwise as a new
    pair at position [pos] (at the end when [pos] is past the end). *)
Definition aput_at (pos : nat) k v l : list (K * V) :=
  match aget k l with
  | Some _ => areplace k v l
  | None => take pos l ++ (k, v) :: drop pos l
  end.

Definition adel k l : list (K * V) :=
  filter (λ e, e.1 ≠ k) l.

Definition akeys l : list K := l.*1.
Definition avalues l : list V := l.*2.

End Assoc.

(** ** The wall clock

  [datetime.utcnow()] and [datetime.now()] are read, never compared: a call
  takes the readings it is given. *)

Module Clock.



End Clock.


(** ** The Redis-backed store ([BDA Course Assigment 1/crud.py]) *)

Module RedisSDFS.

(** The XDM record built by [_create_adobe_xdm_record]. The store keeps its
    [json.dumps] text and every read goes through [json.loads]; on these
    records (strings and integers in nested dicts) the two are inverse, so
    the model keeps the record itself. A time stamp is kept as the reading
    of the clock whose ISO text the record holds. *)
Record XdmName := { firstName : string; lastName : string }.

Record XdmPerson := {
  name : XdmName;
  age : Z;
  phone : string;
  fullAddress : string          (* ["address"]["fullAddress"] *)
}.

Record XdmRecord := {
  at_id : string;               (* ["@id"] *)
  identity_email : string;      (* ["xdm:identityMap"]["email"][0]["id"] *)
  person : XdmPerson;           (* ["xdm:person"] *)
  timestamp : Z;                (* ["xdm:timestamp"] *)
  createdAt : Z;                (* ["xdm:createdAt"] *)
  updatedAt : Z                 (* ["xdm:updatedAt"] *)
}.

(** The Redis hash stored under [collection_key], in the order in which
    [HGETALL] enumerates it. Redis defines no enumeration order for a hash:
    a hash with a value longer than [hash-max-listpack-value] (64 bytes by
    default, less than any serialized XDM record) is a hash table,
    enumerated by bucket. The place a new field takes in the enumeration
    is therefore an input, [slot].

    [hset] and [hdel] leave the other fields in the order they had. A
    server promises no such thing - a hash table that grows or shrinks is
    rehashed - so the order of a hash after a write is one of the
    enumerations the server may give, not the only one. Within one call
    the order is that of the one [HGETALL] the call makes before it
    writes. *)
Definition hash := list (string * XdmRecord).

Definition hset (slot : nat) (h : hash) (field : string) (value : XdmRecord) : hash :=
  aput_at slot field value h.

Definition hdel (h : hash) (field : string) : hash := adel field h.

Definition hlen (h : hash) : nat := length h.

Definition hgetall (h : hash) : list (string * XdmRecord) := h.

Definition hget (h : hash) (field : string) : option XdmRecord := aget field h.

(** The [data] dict handed to [create]. *)
Record UserData := {
  d_name : string;
  d_email : string;
  d_age : Z;
  d_phone : string;
  d_address : string
}.

(** What one call of [create] reads from outside: the token of
    [uuid.uuid4().hex], three successive readings of [datetime.utcnow()],
    and the slot Redis gives to the new field. *)
Record CreateEnv := {
  uuid_hex : string;
  t_timestamp : Z;
  t_created : Z;
  t_updated : Z;
  slot : nat
}.

Definition _generate_adobe_id (uuid_hex : string) : string :=
  "adobe_" +:+ PyStr.prefix 16 uuid_hex.

(** [None] stands for the [IndexError] of [data["name"].split()[0]] on a
    name that is not empty but blank. *)
Definition _create_adobe_xdm_record (env : CreateEnv) (data : UserData)
  : option XdmRecord :=
  let parts := PyStr.split (d_name data) in
  first ← (if decide (d_name data = "") then Some ""
           else match parts with [] => None | p :: _ => Some p end);
  Some {| at_id := _generate_adobe_id (uuid_hex env);
          identity_email := d_email data;
          person := {| name := {| firstName := first;
                                  lastName := PyStr.last_or_empty parts |};
                       age := d_age data;
                       phone := d_phone data;
                       fullAddress := d_address data |};
          timestamp := t_timestamp env;
          createdAt := t_created env;
          updatedAt := t_updated env |}.

(** [create]: the forwarding of the record to the AEP simulator changes
    nothing here (every failure of it is swallowed) and is left out. *)
Definition create (env : CreateEnv) (h : hash) (data : UserData)
  : option (string * hash) :=
  adobe_record ← _create_adobe_xdm_record env data;
  let record_id := at_id adobe_record in
  Some (record_id, hset (slot env) h record_id adobe_record).

Definition find_all (h : hash) : list XdmRecord := (hgetall h).*2.

Definition email_is (email : string) (record : XdmRecord) : bool :=
  bool_decide (identity_email record = email).

Definition find_by_email (h : hash) (email : string) : option XdmRecord :=
  List.find (email_is email) (find_all h).

(** The [update_data] dict: a field is [Some] when its key is in the dict. *)
Record UpdateData := {
  u_name : option string;
  u_age : option Z;
  u_phone : option string;
  u_address : option string
}.

Definition set_name (n : option string) (nm : XdmName) : XdmName :=
  match n with
  | Some s => let name_parts := PyStr.split s in
              {| firstName := PyStr.first_or_empty name_parts;
                 lastName := PyStr.last_or_empty name_parts |}
  | None => nm
  end.

(** The body of the [if] of [update_by_email], up to the [hset]. *)
Definition apply_update (update_data : UpdateData) (now : Z) (record : XdmRecord)
  : XdmRecord :=
  let p := person record in
  {| at_id := at_id record;
     identity_email := identity_email record;
     person := {| name := set_name (u_name update_data) (name p);
                  age := default (age p) (u_age update_data);
                  phone := default (phone p) (u_phone update_data);
                  fullAddress := default (fullAddress p) (u_address update_data) |};
     timestamp := timestamp record;
     createdAt := createdAt record;
     updatedAt := now |}.

Definition update_by_email (now : Z) (slot : nat) (h : hash) (email : string)
    (update_data : UpdateData) : nat * hash :=
  match List.find (email_is email) (find_all h) with
  | Some record =>
      let record' := apply_update update_data now record in
      (1, hset slot h (at_id record') record')
  | None => (0, h)
  end.

Definition delete_by_email (h : hash) (email : string) : nat * hash :=
  match List.find (email_is email) (find_all h) with
  | Some record => (1, hdel h (at_id record))
  | None => (0, h)
  end.

Definition delete_all (h : hash) : nat * hash := (hlen h, []).

Definition count (h : hash) : nat := hlen h.

(** *** The module-level functions *)

(** [create_user] answers [None] both when the email is taken and when
    [create] raises; the store is untouched in both cases. *)
Definition create_user (env : CreateEnv) (h : hash)
    (name email : string) (age : Z) (phone address : option string)
  : option string * hash :=
  match find_by_email h email with
  | Some _ => (None, h)
  | None =>
      let user_data := {| d_name := name; d_email := email; d_age := age;
                          d_phone := PyStr.or_empty phone;
                          d_address := PyStr.or_empty address |} in
      match create env h user_data with
      | Some (record_id, h') => (Some record_id, h')
      | None => (None, h)
      end
  end.

Definition get_all_users (h : hash) : list XdmRecord := find_all h.

Definition get_user_by_email (h : hash) (email : string) : option XdmRecord :=
  find_by_email h email.

(** The [name] that [get_user_by_email] and [get_all_users] print for a
    record. *)
Definition display_name (user : XdmRecord) : string :=
  let name_obj := name (person user) in
  PyStr.strip (firstName name_obj +:+ " " +:+ lastName name_obj).

Definition update_user := update_by_email.
Definition delete_user := delete_by_email.
Definition delete_all_users := delete_all.
Definition get_stats := count.

(** Stores written by this class only: every field is the [@id] of its
    value, and no field occurs twice. *)
Definition wf (h : hash) : Prop :=
  NoDup (akeys h) ∧ Forall (λ e, e.1 = at_id e.2) h.

(** How many live records carry [email]. *)
Definition live_with_email (h : hash) (email : string) : nat :=
  length (filter (λ r, identity_email r = email) (find_all h)).

(** *** Sequences of calls

  The calls of the menu that write, each with what it reads from outside. *)
Inductive op :=
| CreateUser (env : CreateEnv) (name email : string) (age : Z)
             (phone address : option string)
| UpdateUser (now : Z) (slot : nat) (email : string) (update_data : UpdateData)
| DeleteUser (email : string)
| DeleteAllUsers.

Definition step (h : hash) (o : op) : hash :=
  match o with
  | CreateUser env name email age phone address =>
      (create_user env h name email age phone address).2
  | UpdateUser now slot email update_data =>
      (update_user now slot h email update_data).2
  | DeleteUser email => (delete_user h email).2
  | DeleteAllUsers => (delete_all_users h).2
  end.

Definition run (h : hash) (ops : list op) : hash := foldl step h ops.

(** The readings of [datetime.utcnow()] a call takes, in order. *)
Definition readings (o : op) : list Z :=
  match o with
  | CreateUser env _ _ _ _ _ => [t_timestamp env; t_created env; t_updated env]
  | UpdateUser now _ _ _ => [now]
  | DeleteUser _ | DeleteAllUsers => []
  end.

(** No record of the store was stamped after [t]. *)
Definition updated_by (t : Z) (h : hash) : Prop :=
  Forall (λ r, (updatedAt r ≤ t)%Z) (find_all h).


End RedisSDFS.

(** ** The MongoDB-backed store ([lab3/crud.py]) *)

Module Mongo.

(** The values the script puts in a document. [VTime t] is a [datetime]
    as BSON keeps it: [t] counts milliseconds. *)
Inductive value :=
| VStr (s : string)
| VInt (n : Z)
| VNone
| VTime (t : Z)
| VOid (o : string).

#[global] Instance value_eq_dec : EqDecision value.
Proof. solve_decision. Defined.

(** A collection without secondary index: the documents in natural order,
    which follows insertion. [_id] carries the only unique index. The
    documents are flat: a field holds a scalar, never an embedded document
    or an array. *)
Definition collection := list (gmap string value).

(** BSON holds integers of 64 bits; on any other the encoder of the driver
    raises [OverflowError], before anything is sent. *)
Definition int64 (n : Z) : bool :=
  ((-9223372036854775808 <=? n) && (n <=? 9223372036854775807))%Z.

Definition encodes (v : value) : bool :=
  match v with
  | VInt n => int64 n
  | _ => true
  end.

(** The name of a top-level field: not empty, without NUL (which BSON
    cannot hold in a name: [InvalidDocument]), without a dot (which makes
    the name a path into an embedded document) and without a leading [$]
    (which makes it an operator). *)
Definition field_name (k : string) : bool :=
  match k with
  | EmptyString => false
  | String c _ =>
      negb (Ascii.eqb c "$"%char)
      && forallb (λ x, negb (Ascii.eqb x "."%char) && negb (Ascii.eqb x Ascii.zero))
                 (list_ascii_of_string k)
  end.

(** A document of top-level fields that the driver can encode. The
    functions below are embedded on these documents, taken to stay below
    the size that the server accepts (16 MiB); on a document that is not
    [sendable] they answer [None]. *)
Definition sendable (d : gmap string value) : bool :=
  bool_decide (map_Forall (λ k v, field_name k = true ∧ encodes v = true) d).

Definition has_id (oid : string) (d : gmap string value) : bool :=
  bool_decide (d !! "_id" = Some (VOid oid)).

(** [insert_one] of a document without [_id]: the driver adds the
    [ObjectId] it generated, [oid]. [None]: nothing is inserted. The call
    raises - [OverflowError] for an integer beyond 64 bits,
    [DuplicateKeyError] for an [_id] in use - or the document has a name
    that is no [field_name], which is not embedded here. *)
Definition insert_one (oid : string) (coll : collection) (d : gmap string value)
  : option (string * collection) :=
  if sendable d
  then if existsb (has_id oid) coll then None
       else Some (oid, coll ++ [<["_id" := VOid oid]> d])
  else None.

(** The filter [{"email": email}]. *)
Definition email_is (email : string) (d : gmap string value) : bool :=
  bool_decide (d !! "email" = Some (VStr email)).

Definition find (coll : collection) : list (gmap string value) := coll.

(** The first document that passes the filter, with its position. *)
Definition first_match (coll : collection) (email : string)
  : option (nat * gmap string value) :=
  list_find (λ d, email_is email d = true) coll.

Definition find_one (coll : collection) (email : string) : option (gmap string value) :=
  snd <$> first_match coll email.

(** [$set] may name [_id] only with the value the document has. *)
Definition keeps_id (fields d : gmap string value) : bool :=
  match fields !! "_id" with
  | Some v => bool_decide (d !! "_id" = Some v)
  | None => true
  end.

(** [update_one(filter, {"$set": fields})]: the first match takes the
  fields; [modified_count] is 1 when that changed the document. [None]:
  the call does not end with a count. Either it raises - [OverflowError]
  for an integer beyond 64 bits and [InvalidDocument] for a NUL in a name,
  both before anything is sent, [WriteError] for an empty name or for a
  [$set] that would change the [_id] of the match - or [fields] is not
  [sendable] for another reason (a dotted name, a leading [$]), which is
  not embedded here. *)
Definition update_one (coll : collection) (email : string) (fields : gmap string value)
  : option (nat * collection) :=
  if sendable fields
  then match first_match coll email with
       | None => Some (0, coll)
       | Some (i, d) =>
           if keeps_id fields d
           then let d' := fields ∪ d in
                Some (if decide (d' = d) then 0 else 1, <[i := d']> coll)
           else None
       end
  else None.

Definition delete_one (coll : collection) (email : string) : nat * collection :=
  match first_match coll email with
  | None => (0, coll)
  | Some (i, _) => (1, delete i coll)
  end.

(** [delete_many({})] and [count_documents({})]. *)
Definition delete_many (coll : collection) : nat * collection := (length coll, []).

Definition count_documents (coll : collection) : nat := length coll.

Definition opt_str (x : option string) : value :=
  match x with Some s => VStr s | None => VNone end.

(** *** The functions of the script. [t_created] and [t_updated] are the
    two readings of [datetime.now()], in the milliseconds that BSON keeps
    of them. *)

Definition create_user (oid : string) (t_created t_updated : Z) (coll : collection)
    (name email : string) (age : Z) (phone address : option string)
  : option (string * collection) :=
  let user : gmap string value :=
    <["name" := VStr name]> (<["email" := VStr email]> (<["age" := VInt age]>
    (<["phone" := opt_str phone]> (<["address" := opt_str address]>
    (<["created_at" := VTime t_created]> (<["updated_at" := VTime t_updated]> ∅)))))) in
  insert_one oid coll user.

Definition get_all_users (coll : collection) : list (gmap string value) := find coll.

Definition get_user_by_email (coll : collection) (email : string)
  : option (gmap string value) := find_one coll email.

Definition update_user (now : Z) (coll : collection) (email : string)
    (updated_data : gmap string value) : option (nat * collection) :=
  update_one coll email (<["updated_at" := VTime now]> updated_data).

Definition delete_user (coll : collection) (email : string) : nat * collection :=
  delete_one coll email.

Definition delete_all_users (coll : collection) : nat * collection := delete_many coll.

Definition get_stats (coll : collection) : nat := count_documents coll.

(** How many live documents carry [email]. *)
Definition live_with_email (coll : collection) (email : string) : nat :=
  length (filter (λ d, d !! "email" = Some (VStr email)) coll).

End Mongo.

(** ** The file-backed store ([BDA Course Assigment 1/main.py]) *)

Module FileSDFS.

(** One entry of [self.files]. The key [updated_at] is absent until the
    first [update_metadata]. *)
Record FileInfo := {
  file_id : string;
  original_name : string;
  stored_path : string;
  size_bytes : nat;
  uploaded_at : Z;
  metadata : gmap string string;
  updated_at : option Z
}.

(** The store object together with the file system as the calls see it:
    [disk] gives the content of the regular file that a path names, and
    nothing for a path at which nothing exists; a file is kept under one
    path. Directories are left out: no path that is read or written here
    names one. [files] is the Python dict [self.files], in insertion
    order. *)
Record World := {
  storage_path : string;
  files : list (string * FileInfo);
  disk : gmap string string
}.

(** [d[k] = v] on a Python dict: in place for a known key, at the end for a
    new one. *)
Definition dict_set (k : string) (v : FileInfo) (d : list (string * FileInfo))
  : list (string * FileInfo) := aput_at (length d) k v d.

(** How a [shutil.copy2] ends when its source is a regular file: it
    completes, or it raises, having written nothing ([CopyFailed None]) or
    the first [n] bytes of the destination ([CopyFailed (Some n)]). The
    outcome is the file system's: when the destination is the source under
    another spelling (a relative form, a link), [copy2] raises
    [SameFileError] and has written nothing - a [CopyFailed None]. *)
Inductive copy_outcome :=
| CopyDone
| CopyFailed (written : option nat).

(** [shutil.copy2 src dst]; the boolean is false when it raised. A source
    and a destination spelled alike are one file. *)
Definition copy2 (o : copy_outcome) (d : gmap string string) (src dst : string)
  : bool * gmap string string :=
  match d !! src with
  | None => (false, d)
  | Some content =>
      if decide (src = dst) then (false, d)
      else match o with
           | CopyDone => (true, <[dst := content]> d)
           | CopyFailed None => (false, d)
           | CopyFailed (Some n) => (false, <[dst := PyStr.prefix n content]> d)
           end
  end.

(** The components of a POSIX path, as [pathlib] keeps them. *)
Fixpoint components_from (cur : string) (s : string) : list string :=
  match s with
  | EmptyString => [cur]
  | String c s' =>
      if decide (c = "/"%char) then cur :: components_from "" s'
      else components_from (cur +:+ String c "") s'
  end.

Definition components (path : string) : list string :=
  filter (λ c, c ≠ "" ∧ c ≠ ".") (components_from "" path).

(** [Path(path).name] *)
Definition path_name (path : string) : string := List.last (components path) "".

Definition _generate_adobe_id (uuid_hex : string) : string :=
  "adobe_" +:+ PyStr.prefix 16 uuid_hex.

(** The root of a POSIX path as [pathlib] reads it: ["/"], or ["//"] for
    exactly two leading slashes; empty for a relative path. *)
Definition root (path : string) : string :=
  match path with
  | String "/"%char (String "/"%char (String "/"%char _)) => "/"
  | String "/"%char (String "/"%char _) => "//"
  | String "/"%char _ => "/"
  | _ => ""
  end.

(** What [str(Path(path) / name)] puts before a [name] of one component:
    the root and the components of [path], each followed by a slash.
    Nothing for ["."], ["/"] for ["/"]. *)
Definition dir_prefix (path : string) : string :=
  root path +:+ foldr (λ c rest, c +:+ "/" +:+ rest) "" (components path).

(** [str(self.storage_path / f"{file_id}_{source_path.name}")]: the id is
    ["adobe_"] and hexadecimal digits, the name of a path has no slash, so
    what is joined to the storage path is one component. *)
Definition dest_path_of (w : World) (file_id source_name : string) : string :=
  dir_prefix (storage_path w) +:+ (file_id +:+ "_" +:+ source_name).

(** [__init__]: [mkdir] touches directories only; when it raises
    ([mkdir_ok = false]) no store is built. [storage_path] keeps the
    argument; every path made from it goes through [Path]. *)
Definition init (mkdir_ok : bool) (path : string) (d : gmap string string)
  : option World :=
  if mkdir_ok then Some {| storage_path := path; files := []; disk := d |}
  else None.

(** [create]: every exception ends in [return None]. *)
Definition create (uuid_hex : string) (now : Z) (o : copy_outcome) (w : World)
    (file_path : string) (md : option (gmap string string)) : option string * World :=
  match disk w !! file_path with
  | None => (None, w)
  | Some content =>
      let file_id := _generate_adobe_id uuid_hex in
      let dest_path := dest_path_of w file_id (path_name file_path) in
      match copy2 o (disk w) file_path dest_path with
      | (false, d') =>
          (None, {| storage_path := storage_path w; files := files w; disk := d' |})
      | (true, d') =>
          let info := {| file_id := file_id;
                         original_name := path_name file_path;
                         stored_path := dest_path;
                         size_bytes := String.length content;
                         uploaded_at := now;
                         metadata := default ∅ md;
                         updated_at := None |} in
          (Some file_id,
           {| storage_path := storage_path w;
              files := dict_set file_id info (files w);
              disk := d' |})
      end
  end.

Definition read_all (w : World) : list FileInfo := avalues (files w).

Definition read_by_id (w : World) (file_id : string) : option FileInfo :=
  aget file_id (files w).

(** [download]: a [mkdir] of the parent directory that raises ends the
    call as a copy that wrote nothing does. *)
Definition download (o : copy_outcome) (w : World) (file_id dest_path : string)
  : bool * World :=
  match aget file_id (files w) with
  | None => (false, w)
  | Some file_info =>
      let '(ok, d') := copy2 o (disk w) (stored_path file_info) dest_path in
      (ok, {| storage_path := storage_path w; files := files w; disk := d' |})
  end.

Definition update_metadata (now : Z) (w : World) (file_id : string)
    (new_metadata : gmap string string) : bool * World :=
  match aget file_id (files w) with
  | None => (false, w)
  | Some info =>
      let info' := {| file_id := FileSDFS.file_id info;
                      original_name := original_name info;
                      stored_path := stored_path info;
                      size_bytes := size_bytes info;
                      uploaded_at := uploaded_at info;
                      metadata := new_metadata ∪ metadata info;
                      updated_at := Some now |} in
      (true, {| storage_path := storage_path w;
                files := dict_set file_id info' (files w);
                disk := disk w |})
  end.

(** [delete]: [unlink_ok p] tells whether [unlink] of the existing file
    [p] goes through; when it raises, the entry stays and the answer is
    [False]. *)
Definition delete (unlink_ok : string → bool) (w : World) (file_id : string)
  : bool * World :=
  match aget file_id (files w) with
  | None => (false, w)
  | Some file_info =>
      let file_path := stored_path file_info in
      match disk w !! file_path with
      | Some _ =>
          if unlink_ok file_path
          then (true, {| storage_path := storage_path w;
                         files := adel file_id (files w);
                         disk := base.delete file_path (disk w) |})
          else (false, w)
      | None =>
          (true, {| storage_path := storage_path w;
                    files := adel file_id (files w);
                    disk := disk w |})
      end
  end.

(** [for file_id in ids: self.delete(file_id)] *)
Definition delete_each (unlink_ok : string → bool) (w : World) (ids : list string)
  : World :=
  foldl (λ w' file_id, (delete unlink_ok w' file_id).2) w ids.

Definition delete_all (unlink_ok : string → bool) (w : World) : nat * World :=
  let count := length (files w) in
  (count, delete_each unlink_ok w (akeys (files w))).

Definition count (w : World) : nat := length (files w).

(** The dict has one entry per key. *)
Definition wf (w : World) : Prop := NoDup (akeys (files w)).

(** *** Sequences of calls, each with what it reads from outside *)
Inductive op :=
| Create (uuid_hex : string) (now : Z) (o : copy_outcome) (file_path : string)
         (md : option (gmap string string))
| Download (o : copy_outcome) (file_id dest_path : string)
| UpdateMetadata (now : Z) (file_id : string) (new_metadata : gmap string string)
| Delete (unlink_ok : string → bool) (file_id : string)
| DeleteAll (unlink_ok : string → bool).

Definition step (w : World) (o : op) : World :=
  match o with
  | Create uuid_hex now o file_path md => (create uuid_hex now o w file_path md).2
  | Download o file_id dest_path => (download o w file_id dest_path).2
  | UpdateMetadata now file_id new_metadata =>
      (update_metadata now w file_id new_metadata).2
  | Delete unlink_ok file_id => (delete unlink_ok w file_id).2
  | DeleteAll unlink_ok => (delete_all unlink_ok w).2
  end.

Definition run (w : World) (ops : list op) : World := foldl step w ops.

(** The readings of [datetime.utcnow()] a call takes. *)
Definition readings (o : op) : list Z :=
  match o with
  | Create _ now _ _ _ => [now]
  | UpdateMetadata now _ _ => [now]
  | Download _ _ _ | Delete _ _ | DeleteAll _ => []
  end.

(** No entry of the index carries an [updated_at] later than [t]. *)
Definition updated_by (t : Z) (w : World) : Prop :=
  Forall (λ info, ∀ u, updated_at info = Some u → (u ≤ t)%Z) (read_all w).

(** Every entry was recorded by [create]: its key is a generated id, 22
  characters long, and its file sits in the storage directory under that
  id. *)
Definition stored_by_create (w : World) : Prop :=
  Forall (λ e, String.length e.1 = 22%nat
               ∧ stored_path e.2 = dest_path_of w e.1 (original_name e.2))
         (files w).

End FileSDFS.

(** ** Sample stores *)

Module Samples.

Definition env1 : RedisSDFS.CreateEnv :=
  {| RedisSDFS.uuid_hex := "0123456789abcdef0123456789abcdef";
     RedisSDFS.t_timestamp := 100; RedisSDFS.t_created := 100;
     RedisSDFS.t_updated := 100; RedisSDFS.slot := 0 |}.

(** A second creation whose field Redis enumerates first. *)
Definition env2 : RedisSDFS.CreateEnv :=
  {| RedisSDFS.uuid_hex := "fedcba9876543210fedcba9876543210";
     RedisSDFS.t_timestamp := 200; RedisSDFS.t_created := 200;
     RedisSDFS.t_updated := 200; RedisSDFS.slot := 0 |}.

(** The store after [create_user("Ann Mary Lee", "ann@x.com", 30, "555")]. *)
Definition redis_ann : RedisSDFS.hash :=
  (RedisSDFS.create_user env1 [] "Ann Mary Lee" "ann@x.com" 30 (Some "555") None).2.

(** Then [create_user("Bob Ray", "bob@x.com", 41)]. *)
Definition redis_ann_bob : RedisSDFS.hash :=
  (RedisSDFS.create_user env2 redis_ann "Bob Ray" "bob@x.com" 41 None None).2.

(** Two records with one email, as two calls of [AdobeSDFS.create] leave
  them (the class itself checks nothing). *)
Definition redis_twins : RedisSDFS.hash :=
  match RedisSDFS.create env1 []
          {| RedisSDFS.d_name := "Ann Lee"; RedisSDFS.d_email := "ann@x.com";
             RedisSDFS.d_age := 30; RedisSDFS.d_phone := "";
             RedisSDFS.d_address := "" |} with
  | Some (_, h1) =>
      match RedisSDFS.create env2 h1
              {| RedisSDFS.d_name := "Ann Other"; RedisSDFS.d_email := "ann@x.com";
                 RedisSDFS.d_age := 52; RedisSDFS.d_phone := "";
                 RedisSDFS.d_address := "" |} with
      | Some (_, h2) => h2
      | None => h1
      end
  | None => []
  end.

Definition rename_ann : RedisSDFS.UpdateData :=
  {| RedisSDFS.u_name := Some "Ann Mary Lee"; RedisSDFS.u_age := None;
     RedisSDFS.u_phone := None; RedisSDFS.u_address := None |}.

Definition age_31 : RedisSDFS.UpdateData :=
  {| RedisSDFS.u_name := None; RedisSDFS.u_age := Some 31%Z;
     RedisSDFS.u_phone := None; RedisSDFS.u_address := None |}.


(** The collection after [create_user("Ann", "ann@x.com", 30)]. *)
Definition mongo_ann : Mongo.collection :=
  match Mongo.create_user "oid1" 100 100 [] "Ann" "ann@x.com" 30 None None with
  | Some (_, coll) => coll
  | None => []
  end.

(** Then the same call once more. *)
Definition mongo_ann_ann : Mongo.collection :=
  match Mongo.create_user "oid2" 200 200 mongo_ann "Ann" "ann@x.com" 30 None None with
  | Some (_, coll) => coll
  | None => mongo_ann
  end.

Definition disk0 : gmap string string :=
  {[ "/home/u/report.txt" := "quarterly numbers" ]}.

Definition files_new : FileSDFS.World :=
  default {| FileSDFS.storage_path := "adobe_sdfs_storage"; FileSDFS.files := [];
             FileSDFS.disk := disk0 |}
          (FileSDFS.init true "adobe_sdfs_storage" disk0).

Definition report_md : gmap string string :=
  {[ "file_name" := "report"; "description" := "" ]}.

(** The store after the upload of [/home/u/report.txt]. *)
Definition files_report : FileSDFS.World :=
  (FileSDFS.create "0123456789abcdef0123456789abcdef" 100 FileSDFS.CopyDone
     files_new "/home/u/report.txt" (Some report_md)).2.

Definition report_id : string := "adobe_0123456789abcdef".

(** An environment in which every [unlink] raises (a read-only storage
  directory), and one in which none does. *)
Definition unlink_denied : string → bool := λ _, false.
Definition unlink_granted : string → bool := λ _, true.

End Samples.

(** ** Notions used to state what the stores keep *)

Module Keeps.

(** The emails of the live records, in enumeration order. *)
Definition redis_emails (h : RedisSDFS.hash) : list string :=
  RedisSDFS.identity_email <$> RedisSDFS.find_all h.

(** [s] is made of blanks only (the empty string included). *)
Definition all_blank (s : string) : Prop :=
  Forall (λ c, PyStr.isspace c = true) (list_ascii_of_string s).

(** [s] is a word: not empty, without a blank. *)
Definition word (s : string) : Prop :=
  s ≠ "" ∧ Forall (λ c, PyStr.isspace c = false) (list_ascii_of_string s).

(** The first word and, when there are several, the last, with one space
  between. *)
Definition first_and_last (parts : list string) : string :=
  match parts with
  | [] => ""
  | [a] => a
  | a :: rest => a +:+ " " +:+ List.last rest ""
  end.

(** The paths under which the tracked files are stored. *)
Definition stored_paths (w : FileSDFS.World) : list string :=
  FileSDFS.stored_path <$> FileSDFS.read_all w.

(** A digit of [uuid.uuid4().hex]. *)
Definition hex_digit (c : ascii) : bool :=
  let n := N_of_ascii c in
  ((48 <=? n) && (n <=? 57) || (97 <=? n) && (n <=? 102))%N.

(** The uuid token of a [create]: hexadecimal digits, 16 of them at
  least. *)
Definition token_ok (o : FileSDFS.op) : Prop :=
  match o with
  | FileSDFS.Create uuid_hex _ _ _ _ =>
      (16 ≤ String.length uuid_hex)%nat
      ∧ forallb hex_digit (list_ascii_of_string uuid_hex) = true
  | _ => True
  end.

(** A tracked file that [delete] cannot remove: it is on disk and its
  [unlink] raises. *)
Definition stuck (unlink_ok : string → bool) (d : gmap string string)
    (info : FileSDFS.FileInfo) : Prop :=
  is_Some (d !! FileSDFS.stored_path info)
  ∧ unlink_ok (FileSDFS.stored_path info) = false.

#[global] Instance stuck_dec unlink_ok d info : Decision (stuck unlink_ok d info).
Proof. unfold stuck. apply _. Defined.

(** The [_id]s of a collection. *)
Definition mongo_ids (coll : Mongo.collection) : list (option Mongo.value) :=
  (λ d : gmap string Mongo.value, d !! "_id") <$> coll.

End Keeps.

(** ** The menu of [BDA Course Assigment 1/crud.py]

  The loop under [if __name__ == "__main__"]: it reads lines with
  [input()], converts the age with [int()] and calls the functions above.
  [py_int] is Python's [int] on a string ([None] for [ValueError]); what is
  printed is left out. *)

Module RedisMenu.

(** [str.lower] on the code points U+0000 to U+00FF. *)
Definition lower_char (c : ascii) : ascii :=
  let n := N_of_ascii c in
  if ((65 <=? n) && (n <=? 90) || (192 <=? n) && (n <=? 214)
      || (216 <=? n) && (n <=? 222))%N
  then ascii_of_N (n + 32) else c.

Fixpoint lower (s : string) : string :=
  match s with
  | EmptyString => ""
  | String c s' => String (lower_char c) (lower s')
  end.

(** What one turn of the loop reads from outside, besides its input
  lines. *)
Record TurnEnv := {
  for_create : RedisSDFS.CreateEnv;
  now : Z;
  update_slot : nat
}.

(** [input()]: the next line, [None] for [EOFError]. *)
Definition input (stdin : list string) : option (string * list string) :=
  match stdin with
  | [] => None
  | line :: rest => Some (line, rest)
  end.

(** The [updated_data] of choice 4: a field left empty is not in the dict. *)
Definition given (line : string) : option string :=
  if decide (line = "") then None else Some line.

Definition menu_update_data (py_int : string → option Z)
    (name age phone address : string) : option RedisSDFS.UpdateData :=
  age' ← (if decide (age = "") then Some None else Some <$> py_int age);
  Some {| RedisSDFS.u_name := given name;
          RedisSDFS.u_age := age';
          RedisSDFS.u_phone := given phone;
          RedisSDFS.u_address := given address |}.

(** One turn of the [while True]. [None]: an exception left the loop
  ([EOFError], [ValueError]); otherwise whether the loop goes on, the
  store, and the lines not yet read. *)
Definition turn (py_int : string → option Z) (env : TurnEnv) (h : RedisSDFS.hash)
    (stdin : list string) : option (bool * RedisSDFS.hash * list string) :=
  '(choice, s0) ← input stdin;
  if decide (choice = "1") then
    '(name, s1) ← input s0;
    '(email, s2) ← input s1;
    '(age_line, s3) ← input s2;
    age ← py_int age_line;
    '(phone, s4) ← input s3;
    '(address, s5) ← input s4;
    Some (true,
          (RedisSDFS.create_user (for_create env) h name email age
             (Some phone) (Some address)).2,
          s5)
  else if decide (choice = "2") then Some (true, h, s0)
  else if decide (choice = "3") then
    '(email, s1) ← input s0;
    Some (true, h, s1)
  else if decide (choice = "4") then
    '(email, s1) ← input s0;
    '(name, s2) ← input s1;
    '(age, s3) ← input s2;
    '(phone, s4) ← input s3;
    '(address, s5) ← input s4;
    updated_data ← menu_update_data py_int name age phone address;
    Some (true,
          (RedisSDFS.update_user (now env) (update_slot env) h email updated_data).2,
          s5)
  else if decide (choice = "5") then
    '(email, s1) ← input s0;
    Some (true, (RedisSDFS.delete_user h email).2, s1)
  else if decide (choice = "6") then
    '(confirm, s1) ← input s0;
    Some (true,
          if decide (lower confirm = "yes") then (RedisSDFS.delete_all_users h).2 else h,
          s1)
  else if decide (choice = "7") then Some (true, h, s0)
  else if decide (choice = "0") then Some (false, h, s0)
  else Some (true, h, s0).

(** How the program ends: by choice 0, or by an exception. *)
Inductive ending := Left | Stopped.

(** The loop, for at most [fuel] turns; [envs n] is what turn [n] reads. *)
Fixpoint loop (fuel : nat) (py_int : string → option Z) (envs : nat → TurnEnv)
    (n : nat) (h : RedisSDFS.hash) (stdin : list string)
  : option (ending * RedisSDFS.hash) :=
  match fuel with
  | O => None
  | S fuel' =>
      match turn py_int (envs n) h stdin with
      | None => Some (Stopped, h)
      | Some (false, h', _) => Some (Left, h')
      | Some (true, h', stdin') => loop fuel' py_int envs (S n) h' stdin'
      end
  end.

(** A whole run on the lines [stdin]: one turn reads at least one line. *)
Definition session (py_int : string → option Z) (envs : nat → TurnEnv)
    (h : RedisSDFS.hash) (stdin : list string) : option (ending * RedisSDFS.hash) :=
  loop (S (length stdin)) py_int envs 0 h stdin.

End RedisMenu.

Module MenuSamples.

(** A stand-in for [int] on the lines of the sample sessions. *)
Definition int_of_sample (line : string) : option Z :=
  if decide (line = "30") then Some 30%Z
  else if decide (line = "41") then Some 41%Z
  else None.

Definition envs (n : nat) : RedisMenu.TurnEnv :=
  {| RedisMenu.for_create := if decide (n = 0%nat) then Samples.env1 else Samples.env2;
     RedisMenu.now := 300;
     RedisMenu.update_slot := 0 |}.

(** Ann is created, creating her again is refused, all her fields are left
  empty in an update, and the last choice is 0. *)
Definition lines : list string :=
  ["1"; "Ann Lee"; "ann@x.com"; "30"; ""; "";
   "1"; "Ann Other"; "ann@x.com"; "41"; ""; "";
   "4"; "ann@x.com"; ""; ""; ""; "";
   "0"; "never read"].

End MenuSamples.

(** * Properties *)

(** ** Sanity checks of the string and path helpers *)

Example split_three : PyStr.split "  Ann Mary   Lee " = ["Ann"; "Mary"; "Lee"].
Proof. reflexivity. Qed.

Example split_blank : PyStr.split "   " = [].
Proof. reflexivity. Qed.

Example strip_both : PyStr.strip "  Ann  Lee " = "Ann  Lee".
Proof. reflexivity. Qed.

Example path_name_nested : FileSDFS.path_name "/tmp/./data//report.txt" = "report.txt".
Proof. reflexivity. Qed.

Example path_name_dir : FileSDFS.path_name "data/reports/" = "reports".
Proof. reflexivity. Qed.

(** ** Keyed sequences *)

Section AssocFacts.
Context {K V : Type} `{EqDecision K}.

Implicit Types (l : list (K * V)) (k : K) (v : V).

Lemma aget_None k l : aget k l = None ↔ k ∉ akeys l.
Proof.
  induction l as [|[k' v'] t IH]; simpl.
  - split; [intros _; apply not_elem_of_nil | done].
  - case_decide as E.
    + subst. split; [done | intros H; exfalso; apply H; left].
    + rewrite IH. rewrite not_elem_of_cons. naive_solver.
Qed.

Lemma aget_Some_elem k v l : aget k l = Some v → (k, v) ∈ l.
Proof.
  induction l as [|[k' v'] t IH]; simpl; [done|].
  case_decide as E.
  - intros [= ->]. subst. left.
  - intros H. right. auto.
Qed.

Lemma aget_elem_NoDup k v l : NoDup (akeys l) → (k, v) ∈ l → aget k l = Some v.
Proof.
  induction l as [|[k' v'] t IH]; simpl; [by intros _ ?%elem_of_nil|].
  intros [Hk Ht]%NoDup_cons [E | Hin]%elem_of_cons.
  - injection E as <- <-. by rewrite decide_True.
  - case_decide as E; [|auto].
    subst. exfalso. apply Hk. apply list_elem_of_fmap. by exists (k', v).
Qed.

Lemma areplace_keys k v l : akeys (areplace k v l) = akeys l.
Proof.
  induction l as [|[k' v'] t IH]; simpl; [done|].
  case_decide; simpl; [by subst | by rewrite IH].
Qed.

Lemma areplace_length k v l : length (areplace k v l) = length l.
Proof.
  induction l as [|[k' v'] t IH]; simpl; [done|].
  case_decide; simpl; [done | by rewrite IH].
Qed.

Lemma aget_areplace_eq k v l : is_Some (aget k l) → aget k (areplace k v l) = Some v.
Proof.
  induction l as [|[k' v'] t IH]; simpl; [by intros [? ?]|].
  case_decide as E; simpl.
  - by rewrite decide_True.
  - rewrite decide_False by done. auto.
Qed.


Lemma aget_app k l1 l2 :
  aget k (l1 ++ l2) = match aget k l1 with Some v => Some v | None => aget k l2 end.
Proof.
  induction l1 as [|[k' v'] t IH]; simpl; [done|].
  case_decide; [done | apply IH].
Qed.

Lemma aget_take_drop_None k l n :
  aget k l = None → aget k (take n l) = None ∧ aget k (drop n l) = None.
Proof.
  rewrite !aget_None. unfold akeys. intros H.
  split; intros Hin; apply H.
  - rewrite <- (take_drop n l), fmap_app. set_solver.
  - rewrite <- (take_drop n l), fmap_app. set_solver.
Qed.

Lemma aget_aput_eq pos k v l : aget k (aput_at pos k v l) = Some v.
Proof.
  unfold aput_at. destruct (aget k l) as [w|] eqn:E.
  - apply aget_areplace_eq. by rewrite E.
  - destruct (aget_take_drop_None k l pos E) as [Ht _].
    rewrite aget_app, Ht. simpl. by rewrite decide_True.
Qed.


Lemma aput_at_keys_NoDup pos k v l : NoDup (akeys l) → NoDup (akeys (aput_at pos k v l)).
Proof.
  intros Hnd. unfold aput_at. destruct (aget k l) as [w|] eqn:E.
  - by rewrite areplace_keys.
  - apply aget_None in E. unfold akeys in *.
    rewrite fmap_app, fmap_cons. simpl.
    rewrite <- (take_drop pos l), fmap_app in Hnd, E.
    apply NoDup_app in Hnd as (H1 & H2 & H3).
    apply NoDup_app. split_and!; [done | | ].
    + intros x Hx [->|Hx']%elem_of_cons; [|by eapply H2].
      apply E. set_solver.
    + apply NoDup_cons. split; [|done]. intros Hk. apply E. set_solver.
Qed.

Lemma aput_at_fresh_length pos k v l :
  aget k l = None → length (aput_at pos k v l) = S (length l).
Proof.
  intros E. unfold aput_at. rewrite E.
  rewrite length_app. simpl. rewrite length_take, length_drop. lia.
Qed.

Lemma aput_at_end k v l : aget k l = None → aput_at (length l) k v l = l ++ [(k, v)].
Proof.
  intros E. unfold aput_at. rewrite E.
  by rewrite firstn_all, drop_all.
Qed.

Lemma adel_cons k k' v' l :
  adel k ((k', v') :: l) = if decide (k' = k) then adel k l else (k', v') :: adel k l.
Proof.
  unfold adel. rewrite filter_cons. simpl.
  destruct (decide (k' = k)) as [E|E].
  - by rewrite decide_False by (intros H; by apply H).
  - by rewrite decide_True.
Qed.

Lemma adel_elem k e l : e ∈ adel k l ↔ e.1 ≠ k ∧ e ∈ l.
Proof. unfold adel. by rewrite list_elem_of_filter. Qed.

Lemma adel_keys_NoDup k l : NoDup (akeys l) → NoDup (akeys (adel k l)).
Proof.
  induction l as [|[k' v'] t IH]; [done|].
  unfold akeys in *. rewrite fmap_cons. simpl.
  intros [Hk Ht]%NoDup_cons. rewrite adel_cons.
  destruct (decide (k' = k)); [auto|].
  rewrite fmap_cons. apply NoDup_cons. split; [|auto].
  simpl. intros Hin. apply Hk.
  apply list_elem_of_fmap in Hin as ([a b] & Hab & Hin).
  apply adel_elem in Hin as [_ Hin].
  apply list_elem_of_fmap. by exists (a, b).
Qed.

Lemma aget_adel_eq k l : aget k (adel k l) = None.
Proof.
  apply aget_None. unfold akeys.
  intros ([a b] & Hab & [Hne _]%adel_elem)%list_elem_of_fmap.
  simpl in *. by subst.
Qed.


Lemma adel_absent k l : aget k l = None → adel k l = l.
Proof.
  induction l as [|[k' v'] t IH]; [done|].
  simpl. rewrite adel_cons.
  destruct (decide (k = k')) as [E|E]; [done|].
  intros H. rewrite decide_False by congruence. by rewrite IH.
Qed.

Lemma adel_present_length k l :
  NoDup (akeys l) → is_Some (aget k l) → S (length (adel k l)) = length l.
Proof.
  induction l as [|[k' v'] t IH]; [by intros _ [? ?]|].
  unfold akeys in *. rewrite fmap_cons. simpl.
  intros [Hk Ht]%NoDup_cons. rewrite adel_cons.
  destruct (decide (k = k')) as [E|E].
  - subst. intros _. rewrite decide_True by done.
    rewrite adel_absent; [done|]. by apply aget_None.
  - intros H. rewrite decide_False by congruence. simpl. f_equal. by apply IH.
Qed.

Lemma akeys_app l1 l2 : akeys (l1 ++ l2) = akeys l1 ++ akeys l2.
Proof. unfold akeys. apply fmap_app. Qed.

Lemma avalues_app l1 l2 : avalues (l1 ++ l2) = avalues l1 ++ avalues l2.
Proof. unfold avalues. apply fmap_app. Qed.

Lemma aget_middle k v l1 l2 : k ∉ akeys l1 → aget k (l1 ++ (k, v) :: l2) = Some v.
Proof.
  intros Hk. apply aget_None in Hk. rewrite aget_app, Hk. simpl.
  by rewrite decide_True.
Qed.

Lemma areplace_middle k v w l1 l2 :
  k ∉ akeys l1 → areplace k v (l1 ++ (k, w) :: l2) = l1 ++ (k, v) :: l2.
Proof.
  induction l1 as [|[k' v'] t IH]; simpl.
  - intros _. by rewrite decide_True.
  - intros [Hne Ht]%not_elem_of_cons.
    rewrite decide_False by done. f_equal. by apply IH.
Qed.

Lemma adel_middle k w l1 l2 :
  NoDup (akeys (l1 ++ (k, w) :: l2)) → adel k (l1 ++ (k, w) :: l2) = l1 ++ l2.
Proof.
  unfold akeys. rewrite fmap_app, fmap_cons. simpl.
  intros (H1 & H2 & [H3 H4]%NoDup_cons)%NoDup_app.
  induction l1 as [|[k' v'] t IH]; simpl.
  - rewrite adel_cons, decide_True by done.
    apply adel_absent. by apply aget_None.
  - rewrite adel_cons.
    assert (k' ≠ k) as Hne.
    { intros ->. apply (H2 k); [left | left]. }
    rewrite decide_False by done. f_equal. apply IH.
    + rewrite fmap_cons in H1. by apply NoDup_cons in H1 as [_ ?].
    + intros x Hx. apply H2. by right.
Qed.

(** The first value that passes [p], as [for .. in ..: if ..: return] finds
  it, splits the sequence: nothing before it passes. *)
Lemma find_values_split (p : V → bool) l r :
  List.find p (avalues l) = Some r →
  ∃ l1 k l2, l = l1 ++ (k, r) :: l2 ∧ p r = true ∧ Forall (λ e, p e.2 = false) l1.
Proof.
  induction l as [|[k' v'] t IH]; simpl; [done|].
  destruct (p v') eqn:E.
  - intros [= ->]. by exists [], k', t.
  - intros (l1 & k & l2 & -> & Hp & Hall)%IH.
    exists ((k', v') :: l1), k, l2. split_and!; [done | done |].
    by constructor.
Qed.

Lemma find_values_None (p : V → bool) l :
  List.find p (avalues l) = None ↔ Forall (λ e, p e.2 = false) l.
Proof.
  induction l as [|[k' v'] t IH]; simpl; [done|].
  destruct (p v') eqn:E.
  - split; [done|]. intros [H _]%Forall_cons. simpl in H. congruence.
  - rewrite IH. split; [by constructor | by intros [_ ?]%Forall_cons].
Qed.

Lemma find_values_skip (p : V → bool) l1 l2 :
  Forall (λ e, p e.2 = false) l1 →
  List.find p (avalues (l1 ++ l2)) = List.find p (avalues l2).
Proof.
  induction 1 as [|[k' v'] t Hp Hall IH]; simpl; [done|].
  simpl in Hp. by rewrite Hp.
Qed.

End AssocFacts.

(** ** The Redis-backed store *)

Section RedisFacts.
Import RedisSDFS.

Implicit Types (h : hash) (r : XdmRecord) (email : string).

Lemma email_is_true email r : email_is email r = true ↔ identity_email r = email.
Proof. unfold email_is. by rewrite bool_decide_eq_true. Qed.

Lemma email_is_false email r : email_is email r = false ↔ identity_email r ≠ email.
Proof. unfold email_is. by rewrite bool_decide_eq_false. Qed.

Lemma apply_update_id upd now r : at_id (apply_update upd now r) = at_id r.
Proof. done. Qed.

Lemma apply_update_email upd now r :
  identity_email (apply_update upd now r) = identity_email r.
Proof. done. Qed.

(** A live record with the email is found, and what is found is live. *)
Lemma find_by_email_live h email r :
  r ∈ find_all h → identity_email r = email → is_Some (find_by_email h email).
Proof.
  intros Hin He. unfold find_by_email.
  destruct (List.find (email_is email) (find_all h)) as [x|] eqn:E; [by eexists|].
  apply list_elem_of_In in Hin.
  pose proof (List.find_none _ _ E _ Hin) as Hf.
  apply email_is_false in Hf. done.
Qed.

Lemma find_by_email_Some h email r :
  find_by_email h email = Some r → r ∈ find_all h ∧ identity_email r = email.
Proof.
  intros [Hin Hp]%List.find_some. split.
  - by apply list_elem_of_In.
  - by apply email_is_true.
Qed.

Lemma find_by_email_None h email :
  find_by_email h email = None ↔ Forall (λ e, identity_email e.2 ≠ email) h.
Proof.
  unfold find_by_email, find_all, hgetall.
  rewrite (find_values_None (email_is email) h).
  apply Forall_proper; [|done]. intros e. apply email_is_false.
Qed.

(** In a well-formed store the first match sits under its own [@id]. *)
Lemma find_by_email_split h email r :
  wf h → find_by_email h email = Some r →
  ∃ l1 l2, h = l1 ++ (at_id r, r) :: l2
           ∧ Forall (λ e, identity_email e.2 ≠ email) l1
           ∧ identity_email r = email
           ∧ at_id r ∉ akeys l1.
Proof.
  intros [Hnd Hid] Hf.
  apply (find_values_split (email_is email) h) in Hf as (l1 & k & l2 & -> & Hp & Hall).
  apply Forall_app in Hid as [_ [Hk _]%Forall_cons]. simpl in Hk. subst k.
  exists l1, l2. split_and!; [done | | by apply email_is_true |].
  - eapply Forall_impl; [exact Hall|]. intros e. apply email_is_false.
  - rewrite akeys_app in Hnd. apply NoDup_app in Hnd as (_ & Hd & _).
    intros Hin. apply (Hd _ Hin). left.
Qed.

Lemma find_skip email l1 (l2 : hash) :
  Forall (λ e, identity_email e.2 ≠ email) l1 →
  List.find (email_is email) (find_all (l1 ++ l2)) = List.find (email_is email) (find_all l2).
Proof.
  intros Hall. unfold find_all, hgetall.
  apply (find_values_skip (email_is email)).
  eapply Forall_impl; [exact Hall|]. intros e. apply email_is_false.
Qed.

Lemma update_by_email_absent now slot h email upd :
  find_by_email h email = None → update_by_email now slot h email upd = (0%nat, h).
Proof. unfold update_by_email, find_by_email. by intros ->. Qed.

Lemma delete_by_email_absent h email :
  find_by_email h email = None → delete_by_email h email = (0%nat, h).
Proof. unfold delete_by_email, find_by_email. by intros ->. Qed.

Lemma update_by_email_first now slot email upd l1 r l2 :
  at_id r ∉ akeys l1 →
  Forall (λ e, identity_email e.2 ≠ email) l1 →
  identity_email r = email →
  update_by_email now slot (l1 ++ (at_id r, r) :: l2) email upd
  = (1%nat, l1 ++ (at_id r, apply_update upd now r) :: l2).
Proof.
  intros Hk Hall He. unfold update_by_email.
  rewrite find_skip by done. simpl.
  apply email_is_true in He. rewrite He. f_equal.
  unfold hset, aput_at. simpl.
  rewrite aget_middle by done. by apply areplace_middle.
Qed.

Lemma delete_by_email_first email l1 r l2 :
  NoDup (akeys (l1 ++ (at_id r, r) :: l2)) →
  Forall (λ e, identity_email e.2 ≠ email) l1 →
  identity_email r = email →
  delete_by_email (l1 ++ (at_id r, r) :: l2) email = (1%nat, l1 ++ l2).
Proof.
  intros Hnd Hall He. unfold delete_by_email.
  rewrite find_skip by done. simpl.
  apply email_is_true in He. rewrite He. f_equal.
  unfold hdel. by apply adel_middle.
Qed.

(** The operations keep a store well formed. *)
Lemma wf_hset slot h r : wf h → wf (hset slot h (at_id r) r).
Proof.
  intros [Hnd Hid]. split; [by apply aput_at_keys_NoDup|].
  unfold hset, aput_at. destruct (aget (at_id r) h) eqn:E.
  - clear E Hnd. induction h as [|[k v] t IH]; simpl; [done|].
    apply Forall_cons in Hid as [Hk Ht].
    case_decide; constructor; auto.
  - rewrite <- (take_drop slot h) in Hid. apply Forall_app in Hid as [H1 H2].
    apply Forall_app. split; [done|]. by constructor.
Qed.

Lemma wf_hdel h k : wf h → wf (hdel h k).
Proof.
  intros [Hnd Hid]. split; [by apply adel_keys_NoDup|].
  unfold hdel. rewrite Forall_forall in Hid. apply Forall_forall.
  intros e [_ Hin]%adel_elem. by apply Hid.
Qed.

Lemma wf_create env h data id h' : wf h → create env h data = Some (id, h') → wf h'.
Proof.
  intros Hwf. unfold create.
  destruct (_create_adobe_xdm_record env data) as [rec|]; simpl; [|done].
  intros [= <- <-]. by apply wf_hset.
Qed.

Lemma wf_update now slot h email upd : wf h → wf (update_by_email now slot h email upd).2.
Proof.
  intros Hwf. unfold update_by_email.
  destruct (List.find _ _) as [r|]; simpl; [|done].
  rewrite <- (apply_update_id upd now r) at 1. by apply wf_hset.
Qed.

Lemma wf_delete h email : wf h → wf (delete_by_email h email).2.
Proof.
  intros Hwf. unfold delete_by_email.
  destruct (List.find _ _); simpl; [|done]. by apply wf_hdel.
Qed.

End RedisFacts.

(** ** What the MongoDB driver sends *)

Section MongoSend.
Import Mongo.

Implicit Types (d : gmap string value).

Lemma sendable_empty : sendable ∅ = true.
Proof. unfold sendable. apply bool_decide_eq_true. apply map_Forall_empty. Qed.

Lemma sendable_insert k v d :
  field_name k = true → encodes v = true → sendable d = true →
  sendable (<[k := v]> d) = true.
Proof.
  unfold sendable. rewrite !bool_decide_eq_true. intros Hk Hv Hd.
  by apply map_Forall_insert_2.
Qed.

Lemma sendable_lookup d k v :
  sendable d = true → d !! k = Some v → field_name k = true ∧ encodes v = true.
Proof.
  unfold sendable. rewrite bool_decide_eq_true. intros Hd Hk. exact (Hd k v Hk).
Qed.

Lemma encodes_opt_str x : encodes (opt_str x) = true.
Proof. by destruct x. Qed.

(** The document that [create_user] builds can be sent exactly when the age
  fits 64 bits. *)
Lemma sendable_user name email age phone address t1 t2 :
  sendable (<["name" := VStr name]> (<["email" := VStr email]> (<["age" := VInt age]>
           (<["phone" := opt_str phone]> (<["address" := opt_str address]>
           (<["created_at" := VTime t1]> (<["updated_at" := VTime t2]> ∅)))))))
  = int64 age.
Proof.
  destruct (int64 age) eqn:Hage.
  - repeat (apply sendable_insert; [reflexivity | first [done | apply encodes_opt_str] |]).
    apply sendable_empty.
  - apply not_true_is_false. intros Hs.
    apply (sendable_lookup _ "age" (VInt age)) in Hs as [_ Hs]; [|by vm_compute].
    simpl in Hs. congruence.
Qed.

End MongoSend.

(** ** Duplicate emails at creation *)

(** C1, as stated, fails on the MongoDB store of [lab3/crud.py]:
  [create_user] there looks nothing up, so a second call with the email of
  a live document inserts a second document and the collection grows. *)
Lemma C1_mongo_accepts_live_email :
  is_Some (Mongo.get_user_by_email Samples.mongo_ann "ann@x.com")
  ∧ Mongo.get_stats Samples.mongo_ann = 1%nat
  ∧ ∃ coll',
      Mongo.create_user "oid2" 200 200 Samples.mongo_ann
        "Ann" "ann@x.com" 30 None None = Some ("oid2", coll')
      ∧ Mongo.get_stats coll' = 2%nat.
Proof.
  split_and!; [by eexists | done |].
  unfold Mongo.create_user, Mongo.insert_one. rewrite sendable_user.
  assert (existsb (Mongo.has_id "oid2") Samples.mongo_ann = false) as ->
    by (vm_compute; reflexivity).
  eexists. split; [reflexivity|].
  unfold Mongo.get_stats, Mongo.count_documents. rewrite length_app.
  vm_compute. reflexivity.
Qed.

(** C1 (amended to the store that checks): in the Redis-backed store,
  [create_user] with the email of a live record answers [None], stores
  nothing - the hash is the one it was - and so leaves the count as it is.
  In the MongoDB store [create_user] looks no email up: whatever the
  emails of the collection, it inserts when the driver's [ObjectId] is new
  and the age fits the 64 bits of a BSON integer, and the count grows by
  one; with an age beyond 64 bits it raises before anything is sent. *)
Theorem C1_create_user_live_email :
  (∀ (env : RedisSDFS.CreateEnv) (h : RedisSDFS.hash) (name email : string)
     (age : Z) (phone address : option string) (r : RedisSDFS.XdmRecord),
     r ∈ RedisSDFS.find_all h →
     RedisSDFS.identity_email r = email →
     RedisSDFS.create_user env h name email age phone address = (None, h)
     ∧ RedisSDFS.count (RedisSDFS.create_user env h name email age phone address).2
       = RedisSDFS.count h)
  ∧ (∀ (oid : string) (t_created t_updated : Z) (coll : Mongo.collection)
       (name email : string) (age : Z) (phone address : option string),
       existsb (Mongo.has_id oid) coll = false →
       (Mongo.int64 age = true →
        ∃ coll', Mongo.create_user oid t_created t_updated coll
                   name email age phone address = Some (oid, coll')
                 ∧ Mongo.get_stats coll' = S (Mongo.get_stats coll))
       ∧ (Mongo.int64 age = false →
          Mongo.create_user oid t_created t_updated coll
            name email age phone address = None)).
Proof.
  split.
  - intros env h name email age phone address r Hin He.
    destruct (find_by_email_live h email r Hin He) as [x Hx].
    assert (RedisSDFS.create_user env h name email age phone address = (None, h)) as E.
    { unfold RedisSDFS.create_user. by rewrite Hx. }
    by rewrite E.
  - intros oid t1 t2 coll name email age phone address Hnew.
    unfold Mongo.create_user, Mongo.insert_one. rewrite sendable_user, Hnew.
    split; intros ->; [|done].
    eexists. split; [done|].
    unfold Mongo.get_stats, Mongo.count_documents. rewrite length_app. simpl. lia.
Qed.

Lemma C1_create_user_witness :
  (RedisSDFS.create_user Samples.env2 Samples.redis_ann
     "Ann Lee" "ann@x.com" 31 None None = (None, Samples.redis_ann)
   ∧ RedisSDFS.count
       (RedisSDFS.create_user Samples.env2 Samples.redis_ann
          "Ann Lee" "ann@x.com" 31 None None).2
     = RedisSDFS.count Samples.redis_ann)
  ∧ (∃ coll', Mongo.create_user "oid2" 200 200 Samples.mongo_ann
                "Ann" "ann@x.com" 30 None None = Some ("oid2", coll')
              ∧ Mongo.get_stats coll' = S (Mongo.get_stats Samples.mongo_ann)).
Proof.
  destruct C1_create_user_live_email as [HR HM]. split.
  - eapply (HR Samples.env2 Samples.redis_ann).
    + vm_compute. left.
    + reflexivity.
  - apply (HM "oid2" 200%Z 200%Z Samples.mongo_ann); reflexivity.
Defined.

(** An age beyond 64 bits stops the driver before it sends anything, at
  creation and in an update, with or without a matching document. *)
Example mongo_age_beyond_64_bits :
  Mongo.create_user "oid1" 100 100 [] "Ann" "ann@x.com" 9223372036854775808 None None
  = None
  ∧ Mongo.update_user 300 Samples.mongo_ann "ann@x.com"
      {["age" := Mongo.VInt 9223372036854775808]} = None
  ∧ Mongo.update_user 300 Samples.mongo_ann "bob@x.com"
      {["age" := Mongo.VInt (-9223372036854775809)]} = None
  ∧ fst <$> Mongo.update_user 300 Samples.mongo_ann "ann@x.com"
              {["age" := Mongo.VInt 9223372036854775807]} = Some 1%nat.
Proof. split_and!; vm_compute; reflexivity. Qed.

(** ** Several records with one email in the Redis-backed store *)

(** C9: in a store written by this class, [update_by_email] and
  [delete_by_email] either find no record with the email, answer 0 and
  leave the hash as it is, or act on the first record with the email in
  enumeration order: the update rewrites that one entry in place, the
  delete removes that one entry, every other entry - later records with
  the same email included - stays as it is, and the answer is 1. *)
Theorem C9_redis_first_match_only
    (h : RedisSDFS.hash) (email : string) (now : Z) (slot : nat)
    (upd : RedisSDFS.UpdateData) :
  RedisSDFS.wf h →
  ((RedisSDFS.find_by_email h email = None
    ∧ RedisSDFS.update_by_email now slot h email upd = (0%nat, h)
    ∧ RedisSDFS.delete_by_email h email = (0%nat, h))
   ∨ (∃ l1 r l2,
        h = l1 ++ (RedisSDFS.at_id r, r) :: l2
        ∧ Forall (λ e, RedisSDFS.identity_email e.2 ≠ email) l1
        ∧ RedisSDFS.identity_email r = email
        ∧ RedisSDFS.update_by_email now slot h email upd
          = (1%nat, l1 ++ (RedisSDFS.at_id r, RedisSDFS.apply_update upd now r) :: l2)
        ∧ RedisSDFS.delete_by_email h email = (1%nat, l1 ++ l2)))
  ∧ ((RedisSDFS.update_by_email now slot h email upd).1 ≤ 1)%nat
  ∧ ((RedisSDFS.delete_by_email h email).1 ≤ 1)%nat.
Proof.
  intros Hwf.
  destruct (RedisSDFS.find_by_email h email) as [r|] eqn:Hf.
  - destruct (find_by_email_split h email r Hwf Hf) as (l1 & l2 & -> & Hall & He & Hk).
    destruct Hwf as [Hnd _].
    rewrite update_by_email_first, delete_by_email_first by done.
    split_and!; [|simpl; lia..].
    right. by exists l1, r, l2.
  - rewrite update_by_email_absent, delete_by_email_absent by done.
    split_and!; [|simpl; lia..]. by left.
Qed.

Lemma redis_twins_wf : RedisSDFS.wf Samples.redis_twins.
Proof.
  split.
  - vm_compute. apply NoDup_cons. split; [|apply NoDup_singleton].
    intros [E|[]%elem_of_nil]%elem_of_cons. discriminate E.
  - vm_compute. by repeat constructor.
Defined.

Lemma C9_redis_witness :
  RedisSDFS.wf Samples.redis_twins
  ∧ ((RedisSDFS.update_by_email 300 0 Samples.redis_twins "ann@x.com" Samples.age_31).1 ≤ 1)%nat
  ∧ ((RedisSDFS.delete_by_email Samples.redis_twins "ann@x.com").1 ≤ 1)%nat.
Proof.
  split; [exact redis_twins_wf|].
  exact (proj2 (C9_redis_first_match_only Samples.redis_twins "ann@x.com" 300 0
                  Samples.age_31 redis_twins_wf)).
Defined.

(** On the two records with one email: only the one enumerated first is
  updated, or deleted. *)
Example redis_twins_update :
  map (λ r, (RedisSDFS.age (RedisSDFS.person r), RedisSDFS.updatedAt r))
      (RedisSDFS.find_all Samples.redis_twins) = [(52, 200); (30, 100)]%Z
  ∧ (RedisSDFS.update_by_email 300 0 Samples.redis_twins "ann@x.com" Samples.age_31).1
    = 1%nat
  ∧ map (λ r, (RedisSDFS.age (RedisSDFS.person r), RedisSDFS.updatedAt r))
      (RedisSDFS.find_all
         (RedisSDFS.update_by_email 300 0 Samples.redis_twins "ann@x.com" Samples.age_31).2)
    = [(31, 300); (30, 100)]%Z
  ∧ map (λ r, RedisSDFS.age (RedisSDFS.person r))
      (RedisSDFS.find_all (RedisSDFS.delete_by_email Samples.redis_twins "ann@x.com").2)
    = [30%Z].
Proof. by vm_compute. Qed.

(** ** The MongoDB-backed store *)

Section ChangedCount.
Context {A : Type} `{EqDecision A}.




End ChangedCount.

Section MongoFacts.
Import Mongo.

Implicit Types (coll : collection) (d : gmap string value) (email : string).

Lemma first_match_Some coll email i d :
  first_match coll email = Some (i, d) →
  coll !! i = Some d ∧ email_is email d = true
  ∧ ∀ j y, coll !! j = Some y → (j < i)%nat → email_is email y = false.
Proof.
  intros (Hi & Hp & Hbefore)%list_find_Some. split_and!; [done..|].
  intros j y Hj Hlt. specialize (Hbefore j y Hj Hlt).
  by destruct (email_is email y).
Qed.

Lemma first_match_None coll email :
  first_match coll email = None ↔ Forall (λ d, email_is email d = false) coll.
Proof.
  unfold first_match. rewrite list_find_None.
  apply Forall_proper; [|done]. intros d. by destruct (email_is email d).
Qed.

Lemma find_one_None coll email :
  find_one coll email = None ↔ first_match coll email = None.
Proof. unfold find_one. by destruct (first_match coll email). Qed.

Lemma find_one_Some coll email d :
  find_one coll email = Some d ↔ ∃ i, first_match coll email = Some (i, d).
Proof.
  unfold find_one. destruct (first_match coll email) as [[i x]|]; simpl.
  - split; [intros [= ->]; by exists i | by intros (j & [= _ ->])].
  - split; [done | by intros (? & ?)].
Qed.

End MongoFacts.

(** ** What an update answers *)




(** The example of the specification, on both stores. *)
Example redis_update_age :
  (RedisSDFS.update_user 300 0 Samples.redis_ann "ann@x.com" Samples.age_31).1 = 1%nat
  ∧ RedisSDFS.age ∘ RedisSDFS.person
      <$> RedisSDFS.get_user_by_email
            (RedisSDFS.update_user 300 0 Samples.redis_ann "ann@x.com" Samples.age_31).2
            "ann@x.com"
    = Some 31%Z.
Proof. by vm_compute. Qed.

Example mongo_update_age :
  fst <$> Mongo.update_user 300 Samples.mongo_ann "ann@x.com" {["age" := Mongo.VInt 31]}
  = Some 1%nat
  ∧ (Mongo.update_user 300 Samples.mongo_ann "ann@x.com" {["age" := Mongo.VInt 31]}
     ≫= (λ a : nat * Mongo.collection,
           Mongo.get_user_by_email a.2 "ann@x.com" ≫= (.!! "age")))
    = Some (Mongo.VInt 31).
Proof. split; vm_compute; reflexivity. Qed.

(** ** Deleting one record *)

Section SoleMatch.
Context {A : Type} (P : A → Prop) `{∀ x, Decision (P x)}.

Lemma filter_nil_Forall (l : list A) : filter P l = [] ↔ Forall (λ x, ¬ P x) l.
Proof.
  induction l as [|a l IH]; [done|].
  rewrite filter_cons. destruct (decide (P a)) as [Ha|Ha].
  - split; [done|]. by intros [? _]%Forall_cons.
  - rewrite IH. split; [by constructor | by intros [_ ?]%Forall_cons].
Qed.

(** When exactly one element passes [P], nothing after the first that
  passes does. *)
Lemma sole_match_rest (l1 l2 : list A) (x : A) :
  P x → length (filter P (l1 ++ x :: l2)) = 1%nat → Forall (λ y, ¬ P y) l2.
Proof.
  intros Hx. rewrite filter_app, filter_cons_True, length_app by done. simpl.
  intros Hlen. apply filter_nil_Forall, nil_length_inv. lia.
Qed.

(** The first element that passes [P] counts for one among those that
  pass. *)
Lemma first_match_count (l1 l2 : list A) (x : A) :
  Forall (λ y, ¬ P y) l1 → P x →
  length (filter P (l1 ++ x :: l2)) = S (length (filter P l2))
  ∧ length (filter P (l1 ++ l2)) = length (filter P l2).
Proof.
  intros Hl1%filter_nil_Forall Hx.
  by rewrite !filter_app, filter_cons_True, !length_app, Hl1 by done.
Qed.

Lemma filter_length_pos (l : list A) :
  (0 < length (filter P l))%nat → ∃ x, x ∈ l ∧ P x.
Proof.
  destruct (filter P l) as [|x t] eqn:E; simpl; [lia|]. intros _.
  exists x. assert (x ∈ filter P l) as Hin by (rewrite E; left).
  apply list_elem_of_filter in Hin as [? ?]. done.
Qed.

End SoleMatch.

Section DeleteFacts.

Lemma mongo_first_match_split (coll : Mongo.collection) email i d :
  Mongo.first_match coll email = Some (i, d) →
  ∃ l1 l2, coll = l1 ++ d :: l2 ∧ length l1 = i
           ∧ Mongo.email_is email d = true
           ∧ Forall (λ y, Mongo.email_is email y = false) l1.
Proof.
  intros (Hi & Hp & Hbefore)%first_match_Some.
  exists (take i coll), (drop (S i) coll).
  pose proof (lookup_lt_Some _ _ _ Hi) as Hlt.
  split_and!; [| rewrite length_take; lia | done |].
  - by rewrite <- (take_drop_middle coll i d Hi) at 1.
  - apply Forall_forall. intros y Hy.
    apply list_elem_of_lookup in Hy as [j Hj].
    pose proof (lookup_lt_Some _ _ _ Hj) as Hjlt. rewrite length_take in Hjlt.
    rewrite lookup_take_lt in Hj by lia. apply (Hbefore j y Hj). lia.
Qed.

Lemma mongo_email_is_true email (d : gmap string Mongo.value) :
  Mongo.email_is email d = true ↔ d !! "email" = Some (Mongo.VStr email).
Proof. unfold Mongo.email_is. by rewrite bool_decide_eq_true. Qed.

Lemma mongo_email_is_false email (d : gmap string Mongo.value) :
  Mongo.email_is email d = false ↔ d !! "email" ≠ Some (Mongo.VStr email).
Proof. unfold Mongo.email_is. by rewrite bool_decide_eq_false. Qed.

Lemma mongo_delete_first (l1 l2 : Mongo.collection) email d :
  Mongo.email_is email d = true →
  Forall (λ y, Mongo.email_is email y = false) l1 →
  Mongo.delete_one (l1 ++ d :: l2) email = (1%nat, l1 ++ l2).
Proof.
  intros Hd Hall. unfold Mongo.delete_one.
  assert (Mongo.first_match (l1 ++ d :: l2) email = Some (length l1, d)) as ->.
  { apply list_find_Some. split_and!.
    - by rewrite list_lookup_middle.
    - done.
    - intros j y Hj Hlt. rewrite lookup_app_l in Hj by done.
      rewrite Forall_forall in Hall.
      rewrite (Hall y); [done|]. apply list_elem_of_lookup. eauto. }
  f_equal. apply delete_middle.
Qed.

End DeleteFacts.

(** C6, as stated, fails on the MongoDB store: it accepts a second record
  with the email of a live one, [delete_user] removes the first of the two
  only, and the read that follows answers the other one. *)
Lemma C6_mongo_delete_leaves_twin :
  is_Some (Mongo.get_user_by_email Samples.mongo_ann_ann "ann@x.com")
  ∧ (Mongo.delete_user Samples.mongo_ann_ann "ann@x.com").1 = 1%nat
  ∧ (Mongo.get_user_by_email
       (Mongo.delete_user Samples.mongo_ann_ann "ann@x.com").2 "ann@x.com"
     ≫= (.!! "_id")) = Some (Mongo.VOid "oid2").
Proof. split_and!; [by eexists | by vm_compute | by vm_compute]. Qed.

(** C6 (amended): when exactly one live record carries the key, a delete
  that reports success is followed by a read that answers absence, and the
  count is one less. Redis store (where the key is the email): on every
  store written by this class. MongoDB store: on every collection. File
  store (where the key is the file id, and an entry has one key by
  construction): whenever [delete] answers [True]. When several live
  records carry the email - in a Redis hash written by this class, in any
  MongoDB collection - the delete answers 1 and removes the first of them
  in the enumeration, nothing else: the read that follows still answers a
  record, the count is one less and so is the number of records with the
  email. *)
Theorem C6_delete_sole_record :
  (∀ (h : RedisSDFS.hash) (email : string),
     RedisSDFS.wf h →
     RedisSDFS.live_with_email h email = 1%nat →
     (RedisSDFS.delete_user h email).1 = 1%nat
     ∧ RedisSDFS.get_user_by_email (RedisSDFS.delete_user h email).2 email = None
     ∧ S (RedisSDFS.get_stats (RedisSDFS.delete_user h email).2)
       = RedisSDFS.get_stats h)
  ∧ (∀ (coll : Mongo.collection) (email : string),
       Mongo.live_with_email coll email = 1%nat →
       (Mongo.delete_user coll email).1 = 1%nat
       ∧ Mongo.get_user_by_email (Mongo.delete_user coll email).2 email = None
       ∧ S (Mongo.get_stats (Mongo.delete_user coll email).2) = Mongo.get_stats coll)
  ∧ (∀ (unlink_ok : string → bool) (w : FileSDFS.World) (file_id : string),
       FileSDFS.wf w →
       is_Some (FileSDFS.read_by_id w file_id) →
       (FileSDFS.delete unlink_ok w file_id).1 = true →
       FileSDFS.read_by_id (FileSDFS.delete unlink_ok w file_id).2 file_id = None
       ∧ S (FileSDFS.count (FileSDFS.delete unlink_ok w file_id).2)
         = FileSDFS.count w)
  ∧ (∀ (h : RedisSDFS.hash) (email : string),
       RedisSDFS.wf h →
       (1 < RedisSDFS.live_with_email h email)%nat →
       (RedisSDFS.delete_user h email).1 = 1%nat
       ∧ is_Some (RedisSDFS.get_user_by_email (RedisSDFS.delete_user h email).2 email)
       ∧ S (RedisSDFS.get_stats (RedisSDFS.delete_user h email).2)
         = RedisSDFS.get_stats h
       ∧ S (RedisSDFS.live_with_email (RedisSDFS.delete_user h email).2 email)
         = RedisSDFS.live_with_email h email
       ∧ ∃ l1 r l2,
           h = l1 ++ (RedisSDFS.at_id r, r) :: l2
           ∧ Forall (λ e, RedisSDFS.identity_email e.2 ≠ email) l1
           ∧ RedisSDFS.identity_email r = email
           ∧ (RedisSDFS.delete_user h email).2 = l1 ++ l2)
  ∧ (∀ (coll : Mongo.collection) (email : string),
       (1 < Mongo.live_with_email coll email)%nat →
       (Mongo.delete_user coll email).1 = 1%nat
       ∧ is_Some (Mongo.get_user_by_email (Mongo.delete_user coll email).2 email)
       ∧ S (Mongo.get_stats (Mongo.delete_user coll email).2) = Mongo.get_stats coll
       ∧ S (Mongo.live_with_email (Mongo.delete_user coll email).2 email)
         = Mongo.live_with_email coll email
       ∧ ∃ l1 d l2,
           coll = l1 ++ d :: l2
           ∧ Forall (λ y, y !! "email" ≠ Some (Mongo.VStr email)) l1
           ∧ d !! "email" = Some (Mongo.VStr email)
           ∧ (Mongo.delete_user coll email).2 = l1 ++ l2).
Proof.
  split_and!.
  - intros h email Hwf Hone.
    unfold RedisSDFS.delete_user, RedisSDFS.get_user_by_email, RedisSDFS.get_stats,
      RedisSDFS.count, RedisSDFS.hlen.
    destruct (RedisSDFS.find_by_email h email) as [r|] eqn:Hf.
    + destruct (find_by_email_split h email r Hwf Hf) as (l1 & l2 & -> & Hall & He & Hk).
      destruct Hwf as [Hnd _].
      rewrite delete_by_email_first by done. simpl.
      split_and!; [done | | rewrite !length_app; simpl; lia].
      apply find_by_email_None. apply Forall_app. split; [done|].
      unfold RedisSDFS.live_with_email, RedisSDFS.find_all, RedisSDFS.hgetall in Hone.
      change (((l1 ++ (RedisSDFS.at_id r, r) :: l2).*2)) with
        (avalues (l1 ++ (RedisSDFS.at_id r, r) :: l2)) in Hone.
      rewrite avalues_app in Hone. simpl in Hone.
      apply (sole_match_rest (λ x, RedisSDFS.identity_email x = email)) in Hone; [|done].
      unfold avalues in Hone. rewrite Forall_fmap in Hone.
      eapply Forall_impl; [exact Hone|]. by intros [k v].
    + exfalso. apply find_by_email_None in Hf.
      unfold RedisSDFS.live_with_email in Hone.
      assert (filter (λ r, RedisSDFS.identity_email r = email) (RedisSDFS.find_all h) = [])
        as Hnil.
      { apply filter_nil_Forall. unfold RedisSDFS.find_all, RedisSDFS.hgetall.
        apply Forall_fmap. eapply Forall_impl; [exact Hf|]. by intros [k v]. }
      by rewrite Hnil in Hone.
  - intros coll email Hone.
    unfold Mongo.delete_user, Mongo.get_user_by_email, Mongo.get_stats,
      Mongo.count_documents.
    destruct (Mongo.first_match coll email) as [[i d]|] eqn:Hf.
    + apply mongo_first_match_split in Hf as (l1 & l2 & -> & _ & Hd & Hall).
      rewrite mongo_delete_first by done. simpl.
      split_and!; [done | | rewrite !length_app; simpl; lia].
      apply find_one_None, first_match_None, Forall_app. split; [done|].
      unfold Mongo.live_with_email in Hone.
      apply sole_match_rest in Hone; [|by apply mongo_email_is_true].
      eapply Forall_impl; [exact Hone|]. intros y. by rewrite mongo_email_is_false.
    + exfalso. apply first_match_None in Hf.
      unfold Mongo.live_with_email in Hone.
      assert (filter (λ d, d !! "email" = Some (Mongo.VStr email)) coll = []) as Hnil.
      { apply filter_nil_Forall. eapply Forall_impl; [exact Hf|].
        intros y. by rewrite mongo_email_is_false. }
      by rewrite Hnil in Hone.
  - intros unlink_ok w file_id Hwf [info Hinfo].
    unfold FileSDFS.delete, FileSDFS.read_by_id, FileSDFS.count in *.
    rewrite Hinfo.
    assert (S (length (adel file_id (FileSDFS.files w))) = length (FileSDFS.files w))
      as Hlen by (apply adel_present_length; [exact Hwf | by rewrite Hinfo]).
    destruct (FileSDFS.disk w !! FileSDFS.stored_path info).
    + destruct (unlink_ok _); simpl; [|done]. intros _.
      split; [apply aget_adel_eq | done].
    + simpl. intros _. split; [apply aget_adel_eq | done].
  - intros h email Hwf Hmany.
    unfold RedisSDFS.delete_user, RedisSDFS.get_user_by_email, RedisSDFS.get_stats,
      RedisSDFS.count, RedisSDFS.hlen.
    destruct (RedisSDFS.find_by_email h email) as [r|] eqn:Hf.
    + destruct (find_by_email_split h email r Hwf Hf) as (l1 & l2 & -> & Hall & He & Hk).
      destruct Hwf as [Hnd _].
      rewrite delete_by_email_first by done. simpl.
      unfold RedisSDFS.live_with_email, RedisSDFS.find_all, RedisSDFS.hgetall in *.
      rewrite !fmap_app, fmap_cons in *. simpl in *.
      destruct (first_match_count (λ x, RedisSDFS.identity_email x = email)
                  (l1.*2) (l2.*2) r) as [Hall1 Hrest]; [|done|].
      { apply Forall_fmap. eapply Forall_impl; [exact Hall|]. by intros [k v]. }
      rewrite Hall1 in Hmany. rewrite Hall1, Hrest.
      split_and!; [done | | rewrite !length_app; simpl; lia | done |].
      * destruct (filter_length_pos (λ x, RedisSDFS.identity_email x = email) (l2.*2))
          as (x & Hx & Hpx); [lia|].
        apply (find_by_email_live _ email x); [|done].
        unfold RedisSDFS.find_all, RedisSDFS.hgetall. rewrite fmap_app.
        apply elem_of_app. by right.
      * by exists l1, r, l2.
    + exfalso. apply find_by_email_None in Hf.
      unfold RedisSDFS.live_with_email in Hmany.
      assert (filter (λ r, RedisSDFS.identity_email r = email) (RedisSDFS.find_all h) = [])
        as Hnil.
      { apply filter_nil_Forall. unfold RedisSDFS.find_all, RedisSDFS.hgetall.
        apply Forall_fmap. eapply Forall_impl; [exact Hf|]. by intros [k v]. }
      rewrite Hnil in Hmany. simpl in Hmany. lia.
  - intros coll email Hmany.
    unfold Mongo.delete_user, Mongo.get_user_by_email, Mongo.get_stats,
      Mongo.count_documents.
    destruct (Mongo.first_match coll email) as [[i d]|] eqn:Hf.
    + apply mongo_first_match_split in Hf as (l1 & l2 & -> & _ & Hd & Hall).
      rewrite mongo_delete_first by done. simpl.
      unfold Mongo.live_with_email, Mongo.collection in *.
      assert (Forall (λ y, y !! "email" ≠ Some (Mongo.VStr email)) l1) as Hall'.
      { eapply Forall_impl; [exact Hall|]. intros y. by rewrite mongo_email_is_false. }
      apply mongo_email_is_true in Hd as Hd'.
      destruct (first_match_count (λ y : gmap string Mongo.value,
                                     y !! "email" = Some (Mongo.VStr email))
                  l1 l2 d) as [Hall1 Hrest]; [done | done |].
      rewrite Hall1 in Hmany. rewrite Hall1, Hrest.
      split_and!; [done | | rewrite !length_app; simpl; lia | done |].
      * destruct (filter_length_pos (λ y : gmap string Mongo.value,
                                       y !! "email" = Some (Mongo.VStr email)) l2)
          as (x & Hx & Hpx); [lia|].
        destruct (Mongo.find_one (l1 ++ l2) email) eqn:Hnone; [by eexists|].
        apply find_one_None, first_match_None in Hnone.
        rewrite Forall_forall in Hnone.
        assert (Mongo.email_is email x = false) as Hfalse.
        { apply Hnone, elem_of_app. by right. }
        apply mongo_email_is_false in Hfalse. done.
      * by exists l1, d, l2.
    + exfalso. apply first_match_None in Hf.
      unfold Mongo.live_with_email in Hmany.
      assert (filter (λ d, d !! "email" = Some (Mongo.VStr email)) coll = []) as Hnil.
      { apply filter_nil_Forall. eapply Forall_impl; [exact Hf|].
        intros y. by rewrite mongo_email_is_false. }
      rewrite Hnil in Hmany. simpl in Hmany. lia.
Qed.

Lemma redis_ann_bob_wf : RedisSDFS.wf Samples.redis_ann_bob.
Proof.
  split.
  - vm_compute. apply NoDup_cons. split; [|apply NoDup_singleton].
    intros [E|[]%elem_of_nil]%elem_of_cons. discriminate E.
  - vm_compute. by repeat constructor.
Defined.

Lemma files_report_wf : FileSDFS.wf Samples.files_report.
Proof. vm_compute. apply NoDup_singleton. Defined.

Lemma C6_delete_witness :
  (RedisSDFS.get_user_by_email
     (RedisSDFS.delete_user Samples.redis_ann_bob "ann@x.com").2 "ann@x.com" = None
   ∧ S (RedisSDFS.get_stats (RedisSDFS.delete_user Samples.redis_ann_bob "ann@x.com").2)
     = RedisSDFS.get_stats Samples.redis_ann_bob)
  ∧ (Mongo.get_user_by_email
       (Mongo.delete_user Samples.mongo_ann "ann@x.com").2 "ann@x.com" = None
     ∧ S (Mongo.get_stats (Mongo.delete_user Samples.mongo_ann "ann@x.com").2)
       = Mongo.get_stats Samples.mongo_ann)
  ∧ (FileSDFS.read_by_id
       (FileSDFS.delete Samples.unlink_granted Samples.files_report Samples.report_id).2
       Samples.report_id = None
     ∧ S (FileSDFS.count
            (FileSDFS.delete Samples.unlink_granted Samples.files_report
               Samples.report_id).2)
       = FileSDFS.count Samples.files_report)
  ∧ (is_Some (RedisSDFS.get_user_by_email
                (RedisSDFS.delete_user Samples.redis_twins "ann@x.com").2 "ann@x.com")
     ∧ S (RedisSDFS.get_stats (RedisSDFS.delete_user Samples.redis_twins "ann@x.com").2)
       = RedisSDFS.get_stats Samples.redis_twins)
  ∧ (is_Some (Mongo.get_user_by_email
                (Mongo.delete_user Samples.mongo_ann_ann "ann@x.com").2 "ann@x.com")
     ∧ S (Mongo.get_stats (Mongo.delete_user Samples.mongo_ann_ann "ann@x.com").2)
       = Mongo.get_stats Samples.mongo_ann_ann).
Proof.
  destruct C6_delete_sole_record as (HR & HM & HF & HR2 & HM2). split_and!.
  - apply (HR Samples.redis_ann_bob "ann@x.com" redis_ann_bob_wf).
    vm_compute. reflexivity.
  - apply (HR Samples.redis_ann_bob "ann@x.com" redis_ann_bob_wf).
    vm_compute. reflexivity.
  - apply (HM Samples.mongo_ann "ann@x.com"). vm_compute. reflexivity.
  - apply (HM Samples.mongo_ann "ann@x.com"). vm_compute. reflexivity.
  - apply (HF Samples.unlink_granted Samples.files_report Samples.report_id
             files_report_wf); [by eexists | reflexivity].
  - apply (HF Samples.unlink_granted Samples.files_report Samples.report_id
             files_report_wf); [by eexists | reflexivity].
  - apply (HR2 Samples.redis_twins "ann@x.com" redis_twins_wf). vm_compute. lia.
  - apply (HR2 Samples.redis_twins "ann@x.com" redis_twins_wf). vm_compute. lia.
  - apply (HM2 Samples.mongo_ann_ann "ann@x.com"). vm_compute. lia.
  - apply (HM2 Samples.mongo_ann_ann "ann@x.com"). vm_compute. lia.
Defined.

(** ** Deleting everything *)

Lemma redis_delete_all_count (h : RedisSDFS.hash) :
  (RedisSDFS.delete_all h).1 = RedisSDFS.count h
  ∧ RedisSDFS.count (RedisSDFS.delete_all h).2 = 0%nat.
Proof. done. Qed.

Lemma mongo_delete_all_count (coll : Mongo.collection) :
  (Mongo.delete_all_users coll).1 = Mongo.get_stats coll
  ∧ Mongo.get_stats (Mongo.delete_all_users coll).2 = 0%nat.
Proof. done. Qed.

Section FileDeleteAll.
Import FileSDFS.

Variable unlink_ok : string → bool.

Lemma delete_files_granted w file_id :
  (∀ p, unlink_ok p = true) →
  files (delete unlink_ok w file_id).2 = adel file_id (files w).
Proof.
  intros Hok. unfold delete.
  destruct (aget file_id (files w)) as [info|] eqn:E; simpl.
  - destruct (disk w !! stored_path info); [rewrite Hok|]; done.
  - by rewrite adel_absent.
Qed.

Lemma delete_each_files_granted ids w :
  (∀ p, unlink_ok p = true) →
  files (delete_each unlink_ok w ids) = filter (λ e, e.1 ∉ ids) (files w).
Proof.
  intros Hok. revert w. induction ids as [|i ids IH]; intros w.
  - simpl. symmetry. induction (files w) as [|e l IHl]; [done|].
    rewrite filter_cons_True; [by f_equal | apply not_elem_of_nil].
  - change (delete_each unlink_ok w (i :: ids))
      with (delete_each unlink_ok (delete unlink_ok w i).2 ids).
    rewrite IH, delete_files_granted by done.
    unfold adel. rewrite list_filter_filter.
    apply list_filter_iff. intros e. rewrite not_elem_of_cons. naive_solver.
Qed.

(** When no [unlink] raises, [delete_all] empties the index and answers the
  number of entries it removed. *)
Lemma file_delete_all_granted w :
  (∀ p, unlink_ok p = true) →
  (delete_all unlink_ok w).1 = count w ∧ count (delete_all unlink_ok w).2 = 0%nat.
Proof.
  intros Hok. split; [done|].
  unfold delete_all, count. simpl.
  rewrite delete_each_files_granted by done.
  assert (filter (λ e : string * FileInfo, e.1 ∉ akeys (files w)) (files w) = []) as ->; [|done].
  apply filter_nil_Forall, Forall_forall. intros [k v] Hin Hnot. apply Hnot.
  apply list_elem_of_fmap. by exists (k, v).
Qed.

End FileDeleteAll.

(** C2 on the file-backed store, at a store that tracks one file whose
  [unlink] raises: [delete] answers [False] and keeps the entry, yet
  [delete_all] answers 1 - the length it read before the loop - although
  it removed nothing, and [count] is still 1. *)
Theorem C2_file_delete_all_counts_failed_deletes :
  FileSDFS.count Samples.files_report = 1%nat
  ∧ (FileSDFS.delete Samples.unlink_denied Samples.files_report Samples.report_id).1 = false
  ∧ (FileSDFS.delete_all Samples.unlink_denied Samples.files_report).1 = 1%nat
  ∧ (FileSDFS.delete_all Samples.unlink_denied Samples.files_report).2 = Samples.files_report
  ∧ FileSDFS.count (FileSDFS.delete_all Samples.unlink_denied Samples.files_report).2 = 1%nat.
Proof. split_and!; by vm_compute. Qed.

(** ** A newly constructed file store *)

(** C10: whatever the file system holds, the store [AdobeSDFS(path)] builds
  starts with an empty index: [count] is 0, [read_all] is empty, no id is
  found by [read_by_id], [download] and [delete] answer [False] for every
  id and [delete_all] answers 0 - and none of them touches the files of the
  disk, which stay where they were. *)
Theorem C10_new_file_store_is_empty (path : string) (d : gmap string string) :
  ∃ w, FileSDFS.init true path d = Some w
       ∧ FileSDFS.disk w = d
       ∧ FileSDFS.count w = 0%nat
       ∧ FileSDFS.read_all w = []
       ∧ (∀ file_id, FileSDFS.read_by_id w file_id = None)
       ∧ (∀ o file_id dest, FileSDFS.download o w file_id dest = (false, w))
       ∧ (∀ unlink_ok file_id, FileSDFS.delete unlink_ok w file_id = (false, w))
       ∧ (∀ unlink_ok, FileSDFS.delete_all unlink_ok w = (0%nat, w)).
Proof. eexists. split; [done|]. by split_and!. Qed.

(** A file uploaded by one store object is on disk and out of reach of the
  next one. *)
Example files_report_not_inherited :
  let stored := "adobe_sdfs_storage/adobe_0123456789abcdef_report.txt" in
  FileSDFS.disk Samples.files_report !! stored = Some "quarterly numbers"
  ∧ ∃ w, FileSDFS.init true "adobe_sdfs_storage" (FileSDFS.disk Samples.files_report)
         = Some w
         ∧ FileSDFS.disk w !! stored = Some "quarterly numbers"
         ∧ FileSDFS.read_by_id w Samples.report_id = None
         ∧ FileSDFS.read_all w = [].
Proof. split; [by vm_compute|]. eexists. by split_and!. Qed.

(** ** Where the files are stored *)

Example dest_path_default :
  FileSDFS.dest_path_of
    {| FileSDFS.storage_path := "./adobe_sdfs_storage"; FileSDFS.files := [];
       FileSDFS.disk := ∅ |} "adobe_0123456789abcdef" "report.txt"
  = "adobe_sdfs_storage/adobe_0123456789abcdef_report.txt".
Proof. reflexivity. Qed.

Example dest_path_here :
  FileSDFS.dest_path_of
    {| FileSDFS.storage_path := "."; FileSDFS.files := []; FileSDFS.disk := ∅ |}
    "adobe_0123456789abcdef" "report.txt"
  = "adobe_0123456789abcdef_report.txt".
Proof. reflexivity. Qed.

Example dest_path_root :
  FileSDFS.dest_path_of
    {| FileSDFS.storage_path := "/"; FileSDFS.files := []; FileSDFS.disk := ∅ |}
    "adobe_0123456789abcdef" "report.txt"
  = "/adobe_0123456789abcdef_report.txt".
Proof. reflexivity. Qed.

Section FilePaths.
Import FileSDFS Keeps.

(** Two strings that start with ids of one length start with the same id. *)
Lemma append_same_length (a b x y : string) :
  String.length a = String.length b → a +:+ x = b +:+ y → a = b ∧ x = y.
Proof.
  revert b. induction a as [|c a IH]; intros [|c' b]; simpl; try done.
  intros [= Hlen] [= -> Happ]. destruct (IH b Hlen Happ) as [-> ->]. done.
Qed.

Lemma append_cancel (a x y : string) : a +:+ x = a +:+ y → x = y.
Proof. intros H. by destruct (append_same_length a a x y eq_refl H). Qed.

Lemma dest_path_of_inj w id1 n1 id2 n2 :
  String.length id1 = String.length id2 →
  dest_path_of w id1 n1 = dest_path_of w id2 n2 → id1 = id2.
Proof.
  unfold dest_path_of. intros Hlen H.
  apply append_cancel in H.
  by destruct (append_same_length _ _ _ _ Hlen H).
Qed.



End FilePaths.

Example files_report_stored_by_create : FileSDFS.stored_by_create Samples.files_report.
Proof. vm_compute. by repeat constructor. Qed.

(** ** A copy that fails during [create] *)


(** Nor does [create] look whether the id it generated is in use: when it
  is, the destination is the stored file of the tracked entry, and what a
  failed copy wrote is what [download] then hands out for that entry. *)
Example failed_copy_over_tracked_file :
  let stored := "adobe_sdfs_storage/adobe_0123456789abcdef_report.txt" in
  let result := FileSDFS.create "0123456789abcdef0123456789abcdef" 200
                  (FileSDFS.CopyFailed (Some 4%nat)) Samples.files_report
                  "/home/u/report.txt" None in
  FileSDFS.stored_path <$> FileSDFS.read_by_id Samples.files_report Samples.report_id
  = Some stored
  ∧ FileSDFS.disk Samples.files_report !! stored = Some "quarterly numbers"
  ∧ result.1 = None
  ∧ FileSDFS.disk result.2 !! stored = Some "quar"
  ∧ FileSDFS.disk (FileSDFS.download FileSDFS.CopyDone result.2 Samples.report_id
                     "out.txt").2 !! "out.txt" = Some "quar".
Proof. by vm_compute. Qed.



(** ** Reading back what was created *)

Section PutFind.
Context {K V : Type} `{EqDecision K}.

Implicit Types (l : list (K * V)) (k : K) (v : V) (p : V → bool).

Lemma find_areplace p k v l :
  Forall (λ e, p e.2 = false) l → is_Some (aget k l) → p v = true →
  List.find p (avalues (areplace k v l)) = Some v.
Proof.
  induction 1 as [|[k' v'] t Hp Hall IH]; simpl; [by intros [? ?]|].
  simpl in Hp. intros Hk Hv. case_decide; simpl.
  - by rewrite Hv.
  - rewrite Hp. auto.
Qed.

(** A value that passes [p], stored where nothing else passes, is the one
  that a scan for [p] finds, wherever it was put. *)
Lemma find_aput_at p pos k v l :
  Forall (λ e, p e.2 = false) l → p v = true →
  List.find p (avalues (aput_at pos k v l)) = Some v.
Proof.
  intros Hall Hv. unfold aput_at. destruct (aget k l) eqn:E.
  - apply find_areplace; [done | by rewrite E | done].
  - rewrite find_values_skip by by apply Forall_take.
    simpl. by rewrite Hv.
Qed.

Lemma elem_of_areplace k v l e : e ∈ areplace k v l → e = (k, v) ∨ e ∈ l.
Proof.
  induction l as [|[k' v'] t IH]; simpl; [by right|].
  case_decide.
  - intros [->|Hin]%elem_of_cons; [by left | right; by right].
  - intros [->|Hin]%elem_of_cons; [right; left|].
    destruct (IH Hin) as [->|?]; [by left | right; by right].
Qed.

Lemma elem_of_aput_at pos k v l e : e ∈ aput_at pos k v l → e = (k, v) ∨ e ∈ l.
Proof.
  unfold aput_at. destruct (aget k l); [apply elem_of_areplace|].
  rewrite elem_of_app, elem_of_cons.
  rewrite <- (take_drop pos l) at 3. rewrite elem_of_app. naive_solver.
Qed.

End PutFind.

Lemma split_empty_name : PyStr.split "" = [].
Proof. done. Qed.

(** C3, as stated, fails on the Redis-backed store: the record keeps the
  first and the last word of the name and nothing else, and an address
  that was not supplied reads back as the empty string. *)
Lemma C3_redis_name_not_read_back :
  RedisSDFS.create_user Samples.env1 [] "Ann Mary Lee" "ann@x.com" 30 (Some "555") None
  = (Some "adobe_0123456789abcdef", Samples.redis_ann)
  ∧ ∃ r, RedisSDFS.get_user_by_email Samples.redis_ann "ann@x.com" = Some r
         ∧ RedisSDFS.name (RedisSDFS.person r)
           = {| RedisSDFS.firstName := "Ann"; RedisSDFS.lastName := "Lee" |}
         ∧ RedisSDFS.display_name r = "Ann Lee"
         ∧ RedisSDFS.display_name r ≠ "Ann Mary Lee".
Proof. split; [by vm_compute|]. eexists. split; [by vm_compute|]. by split_and!. Qed.

(** C3 (amended): after a successful [create_user], the read by the same
  email answers the record just created - in the MongoDB store provided no
  earlier live document carries the email. Email and age are the values
  supplied; so are phone and address, with [""] for [None] in the Redis
  store; the MongoDB document holds the name as supplied, the Redis record
  the first word of the name and, when there are several, the last. *)
Theorem C3_create_then_read :
  (∀ (env : RedisSDFS.CreateEnv) (h h' : RedisSDFS.hash) (name email : string)
     (age : Z) (phone address : option string) (id : string),
     RedisSDFS.create_user env h name email age phone address = (Some id, h') →
     ∃ r, RedisSDFS.get_user_by_email h' email = Some r
          ∧ RedisSDFS.at_id r = id
          ∧ RedisSDFS.identity_email r = email
          ∧ RedisSDFS.age (RedisSDFS.person r) = age
          ∧ RedisSDFS.phone (RedisSDFS.person r) = PyStr.or_empty phone
          ∧ RedisSDFS.fullAddress (RedisSDFS.person r) = PyStr.or_empty address
          ∧ RedisSDFS.firstName (RedisSDFS.name (RedisSDFS.person r))
            = PyStr.first_or_empty (PyStr.split name)
          ∧ RedisSDFS.lastName (RedisSDFS.name (RedisSDFS.person r))
            = PyStr.last_or_empty (PyStr.split name))
  ∧ (∀ (oid : string) (t_created t_updated : Z) (coll coll' : Mongo.collection)
       (name email : string) (age : Z) (phone address : option string) (id : string),
       Mongo.get_user_by_email coll email = None →
       Mongo.create_user oid t_created t_updated coll name email age phone address
       = Some (id, coll') →
       ∃ d, Mongo.get_user_by_email coll' email = Some d
            ∧ d !! "_id" = Some (Mongo.VOid id)
            ∧ d !! "name" = Some (Mongo.VStr name)
            ∧ d !! "email" = Some (Mongo.VStr email)
            ∧ d !! "age" = Some (Mongo.VInt age)
            ∧ d !! "phone" = Some (Mongo.opt_str phone)
            ∧ d !! "address" = Some (Mongo.opt_str address)).
Proof.
  split.
  - intros env h h' name email age phone address id.
    unfold RedisSDFS.create_user, RedisSDFS.get_user_by_email.
    destruct (RedisSDFS.find_by_email h email) as [?|] eqn:Hf; [done|].
    unfold RedisSDFS.create, RedisSDFS._create_adobe_xdm_record. simpl.
    set (parts := PyStr.split name).
    assert (∀ first,
      (if decide (name = "") then Some ""
       else match parts with [] => None | p :: _ => Some p end) = Some first →
      first = PyStr.first_or_empty parts) as Hfirst.
    { intros first. case_decide as E.
      - intros [= <-]. subst name. done.
      - destruct parts; [done|]. by intros [= <-]. }
    destruct (if decide (name = "") then Some "" else _) as [first|]; simpl; [|done].
    intros [= <- <-]. eexists. split.
    + unfold RedisSDFS.find_by_email, RedisSDFS.find_all, RedisSDFS.hgetall, RedisSDFS.hset.
      apply (find_aput_at (RedisSDFS.email_is email)).
      * apply find_by_email_None in Hf. eapply Forall_impl; [exact Hf|].
        intros e. apply email_is_false.
      * by apply email_is_true.
    + simpl. split_and!; try done. by apply Hfirst.
  - intros oid t1 t2 coll coll' name email age phone address id Hnone.
    unfold Mongo.create_user, Mongo.insert_one. rewrite sendable_user.
    destruct (Mongo.int64 age); [|done].
    destruct (existsb _ coll); [done|]. intros [= <- <-].
    eexists. split.
    + unfold Mongo.get_user_by_email, Mongo.find_one, Mongo.first_match.
      apply find_one_None, first_match_None in Hnone.
      erewrite (proj2 (list_find_Some _ _ (length coll) _)); [done|].
      split_and!.
      * by rewrite list_lookup_middle.
      * apply mongo_email_is_true. by vm_compute.
      * intros j y Hj Hlt. rewrite lookup_app_l in Hj by done.
        rewrite Forall_forall in Hnone.
        rewrite (Hnone y); [done|]. apply list_elem_of_lookup. eauto.
    + split_and!; by vm_compute.
Qed.

Lemma C3_create_then_read_witness :
  (∃ r, RedisSDFS.get_user_by_email Samples.redis_ann "ann@x.com" = Some r
        ∧ RedisSDFS.age (RedisSDFS.person r) = 30%Z
        ∧ RedisSDFS.phone (RedisSDFS.person r) = "555")
  ∧ (∃ d, Mongo.get_user_by_email Samples.mongo_ann "ann@x.com" = Some d
          ∧ d !! "name" = Some (Mongo.VStr "Ann")
          ∧ d !! "age" = Some (Mongo.VInt 30)).
Proof.
  destruct C3_create_then_read as [HR HM]. split.
  - destruct (HR Samples.env1 [] Samples.redis_ann "Ann Mary Lee" "ann@x.com" 30%Z
                (Some "555") None "adobe_0123456789abcdef")
      as (r & Hr & _ & _ & Hage & Hphone & _); [reflexivity|].
    exists r. by split_and!.
  - destruct (HM "oid1" 100%Z 100%Z [] Samples.mongo_ann "Ann" "ann@x.com" 30%Z
                None None "oid1")
      as (d & Hd & _ & Hname & _ & Hage & _); [reflexivity | reflexivity |].
    exists d. by split_and!.
Defined.

(** ** Updates and their time stamp *)

Section ClockFacts.
Import Clock.

Implicit Types (t : Z) (ts : list Z).



End ClockFacts.

Section RedisStamps.
Import Clock RedisSDFS.

Implicit Types (h : hash) (t : Z).






End RedisStamps.

Section FileStamps.
Import Clock FileSDFS.

Implicit Types (w : World) (t : Z).








End FileStamps.





(** ** The order of [read_all] *)

Section ReplaceInPlace.
Context {K V : Type} `{EqDecision K}.

Lemma areplace_insert (k : K) (v v' : V) (l : list (K * V)) :
  aget k l = Some v →
  ∃ i, l !! i = Some (k, v) ∧ areplace k v' l = <[i := (k, v')]> l.
Proof.
  induction l as [|[k0 v0] t IH]; simpl; [done|].
  case_decide as E.
  - intros [= ->]. subst k0. by exists 0%nat.
  - intros (i & Hi & Hrep)%IH. exists (S i). simpl. by rewrite Hrep.
Qed.

End ReplaceInPlace.

(** C7, as stated, fails on the Redis-backed store: [find_all] lists the
  hash as [HGETALL] enumerates it, and Redis is free to enumerate the field
  of a newer record first. Ann is created, then Bob; Bob is read first. *)
Lemma C7_redis_newer_record_first :
  RedisSDFS.create_user Samples.env1 [] "Ann Mary Lee" "ann@x.com" 30 (Some "555") None
  = (Some "adobe_0123456789abcdef", Samples.redis_ann)
  ∧ RedisSDFS.create_user Samples.env2 Samples.redis_ann "Bob Ray" "bob@x.com" 41 None None
    = (Some "adobe_fedcba9876543210", Samples.redis_ann_bob)
  ∧ map (λ r, (RedisSDFS.identity_email r, RedisSDFS.createdAt r))
        (RedisSDFS.get_all_users Samples.redis_ann_bob)
    = [("bob@x.com", 200%Z); ("ann@x.com", 100%Z)].
Proof. split_and!; by vm_compute. Qed.

(** C7 (amended): [read_all] lists every live record once, in the order in
  which the backing store enumerates them. For the dict of the file store
  and for the MongoDB collection that is the order of insertion: a record
  created under a new id comes last, an update changes one record where it
  stands, a delete leaves the others in their order. For the Redis store
  it is the order of [HGETALL]: a record created under a new id is listed
  once, among the others. *)
Theorem C7_read_all_order :
  (∀ (uuid_hex : string) (now : Z) (o : FileSDFS.copy_outcome) (w : FileSDFS.World)
     (file_path : string) (md : option (gmap string string)) (id : string),
     (FileSDFS.create uuid_hex now o w file_path md).1 = Some id →
     FileSDFS.read_by_id w id = None →
     ∃ info, FileSDFS.file_id info = id
             ∧ FileSDFS.read_all (FileSDFS.create uuid_hex now o w file_path md).2
               = FileSDFS.read_all w ++ [info])
  ∧ (∀ (now : Z) (w : FileSDFS.World) (id : string) (md : gmap string string),
       (FileSDFS.update_metadata now w id md).1 = true →
       ∃ i info info',
         FileSDFS.read_all w !! i = Some info
         ∧ FileSDFS.read_all (FileSDFS.update_metadata now w id md).2
           = <[i := info']> (FileSDFS.read_all w))
  ∧ (∀ (unlink_ok : string → bool) (w : FileSDFS.World) (id : string),
       FileSDFS.read_all (FileSDFS.delete unlink_ok w id).2
       `sublist_of` FileSDFS.read_all w)
  ∧ (∀ (oid : string) (t_created t_updated : Z) (coll coll' : Mongo.collection)
       (name email : string) (age : Z) (phone address : option string) (id : string),
       Mongo.create_user oid t_created t_updated coll name email age phone address
       = Some (id, coll') →
       ∃ d, d !! "_id" = Some (Mongo.VOid id)
            ∧ Mongo.get_all_users coll' = Mongo.get_all_users coll ++ [d])
  ∧ (∀ (now : Z) (coll coll' : Mongo.collection) (email : string)
       (updated_data : gmap string Mongo.value) (n : nat),
       Mongo.update_user now coll email updated_data = Some (n, coll') →
       Mongo.get_all_users coll' = Mongo.get_all_users coll
       ∨ ∃ i d d',
           Mongo.get_all_users coll !! i = Some d
           ∧ Mongo.get_all_users coll' = <[i := d']> (Mongo.get_all_users coll))
  ∧ (∀ (coll : Mongo.collection) (email : string),
       Mongo.get_all_users (Mongo.delete_user coll email).2
       `sublist_of` Mongo.get_all_users coll)
  ∧ (∀ (env : RedisSDFS.CreateEnv) (h h' : RedisSDFS.hash) (name email : string)
       (age : Z) (phone address : option string) (id : string),
       RedisSDFS.create_user env h name email age phone address = (Some id, h') →
       RedisSDFS.hget h id = None →
       ∃ r, RedisSDFS.at_id r = id
            ∧ RedisSDFS.get_all_users h' ≡ₚ RedisSDFS.get_all_users h ++ [r]).
Proof.
  split_and!.
  - intros uuid_hex now o w file_path md id.
    unfold FileSDFS.create, FileSDFS.read_by_id, FileSDFS.read_all.
    destruct (FileSDFS.disk w !! file_path) as [content|]; [|done].
    destruct (FileSDFS.copy2 _ _ _ _) as [[|] d']; simpl; [|done].
    intros [= <-] Hnew. eexists. split; [|].
    2: { unfold FileSDFS.dict_set. rewrite aput_at_end by done.
         rewrite avalues_app. reflexivity. }
    done.
  - intros now w id md. unfold FileSDFS.update_metadata, FileSDFS.read_all.
    destruct (aget id (FileSDFS.files w)) as [info|] eqn:Hinfo; simpl; [|done].
    intros _. unfold FileSDFS.dict_set, aput_at. rewrite Hinfo.
    destruct (areplace_insert id info
                {| FileSDFS.file_id := FileSDFS.file_id info;
                   FileSDFS.original_name := FileSDFS.original_name info;
                   FileSDFS.stored_path := FileSDFS.stored_path info;
                   FileSDFS.size_bytes := FileSDFS.size_bytes info;
                   FileSDFS.uploaded_at := FileSDFS.uploaded_at info;
                   FileSDFS.metadata := md ∪ FileSDFS.metadata info;
                   FileSDFS.updated_at := Some now |}
                (FileSDFS.files w) Hinfo) as (i & Hi & ->).
    exists i, info. eexists. unfold avalues. rewrite list_fmap_insert. simpl.
    split; [|done]. by rewrite list_lookup_fmap, Hi.
  - intros unlink_ok w id. unfold FileSDFS.delete, FileSDFS.read_all.
    assert (avalues (adel id (FileSDFS.files w)) `sublist_of` avalues (FileSDFS.files w))
      as Hsub.
    { unfold avalues, adel. apply fmap_sublist, sublist_filter. }
    destruct (aget id (FileSDFS.files w)) as [info|]; [|done].
    destruct (FileSDFS.disk w !! FileSDFS.stored_path info); [|done].
    by destruct (unlink_ok _).
  - intros oid t1 t2 coll coll' name email age phone address id.
    unfold Mongo.create_user, Mongo.insert_one, Mongo.get_all_users, Mongo.find.
    rewrite sendable_user. destruct (Mongo.int64 age); [|done].
    destruct (existsb _ coll); [done|]. intros [= <- <-].
    eexists. split; [|done]. by vm_compute.
  - intros now coll coll' email updated_data n.
    unfold Mongo.update_user, Mongo.update_one, Mongo.get_all_users, Mongo.find.
    destruct (Mongo.sendable _); [|done].
    destruct (Mongo.first_match coll email) as [[i d]|] eqn:Hf.
    + destruct (Mongo.keeps_id _ d); [|done]. intros [= _ <-]. right.
      apply first_match_Some in Hf as (Hi & _). by eexists i, d, _.
    + intros [= _ <-]. by left.
  - intros coll email. unfold Mongo.delete_user, Mongo.delete_one, Mongo.get_all_users,
      Mongo.find.
    destruct (Mongo.first_match coll email) as [[i d]|]; simpl; [|done].
    apply sublist_delete.
  - intros env h h' name email age phone address id.
    unfold RedisSDFS.create_user, RedisSDFS.create.
    destruct (RedisSDFS.find_by_email h email); [done|].
    destruct (RedisSDFS._create_adobe_xdm_record env _) as [rec|]; simpl; [|done].
    intros [= <- <-] Hnew. exists rec. split; [done|].
    unfold RedisSDFS.get_all_users, RedisSDFS.find_all, RedisSDFS.hgetall,
      RedisSDFS.hset, RedisSDFS.hget, aput_at in *.
    rewrite Hnew. rewrite !fmap_app, fmap_cons. simpl.
    rewrite <- (take_drop (RedisSDFS.slot env) h) at 3. rewrite fmap_app.
    rewrite <- Permutation_middle.
    apply Permutation_cons_append.
Qed.

Lemma C7_read_all_order_witness :
  (∃ info, FileSDFS.file_id info = Samples.report_id
           ∧ FileSDFS.read_all Samples.files_report
             = FileSDFS.read_all Samples.files_new ++ [info])
  ∧ (∃ r, RedisSDFS.at_id r = "adobe_fedcba9876543210"
          ∧ RedisSDFS.get_all_users Samples.redis_ann_bob
            ≡ₚ RedisSDFS.get_all_users Samples.redis_ann ++ [r]).
Proof.
  destruct C7_read_all_order as (HC & _ & _ & _ & _ & _ & HR). split.
  - apply (HC "0123456789abcdef0123456789abcdef" 100%Z FileSDFS.CopyDone
             Samples.files_new "/home/u/report.txt" (Some Samples.report_md)
             Samples.report_id); reflexivity.
  - apply (HR Samples.env2 Samples.redis_ann Samples.redis_ann_bob
             "Bob Ray" "bob@x.com" 41%Z None None "adobe_fedcba9876543210");
      reflexivity.
Defined.

(** ** Stores reached by the calls *)

Lemma redis_wf_empty : RedisSDFS.wf [].
Proof. split; [apply NoDup_nil_2 | apply Forall_nil_2]. Qed.

Lemma redis_wf_step (h : RedisSDFS.hash) (o : RedisSDFS.op) :
  RedisSDFS.wf h → RedisSDFS.wf (RedisSDFS.step h o).
Proof.
  intros Hwf. destruct o as [env name email age phone address
                             | now slot email upd | email | ]; simpl.
  - unfold RedisSDFS.create_user.
    destruct (RedisSDFS.find_by_email h email); [done|].
    destruct (RedisSDFS.create env h _) as [[id h']|] eqn:E; [|done].
    simpl. by eapply wf_create.
  - by apply wf_update.
  - by apply wf_delete.
  - apply redis_wf_empty.
Qed.

(** Whatever the menu does from an empty hash, every field is the [@id] of
  its value and occurs once. *)
Lemma redis_wf_run (ops : list RedisSDFS.op) (h : RedisSDFS.hash) :
  RedisSDFS.wf h → RedisSDFS.wf (RedisSDFS.run h ops).
Proof.
  revert h. induction ops as [|o ops IH]; intros h Hwf; [done|].
  apply IH. by apply redis_wf_step.
Qed.

(** A name that is blank but not empty makes [create] raise; [create_user]
  answers [None] and stores nothing. *)
Example redis_blank_name :
  RedisSDFS.create_user Samples.env1 [] "   " "ann@x.com" 30 None None = (None, []).
Proof. reflexivity. Qed.

Section FileWf.
Import FileSDFS.

Lemma files_wf_create uuid_hex now o w file_path md :
  wf w → wf (create uuid_hex now o w file_path md).2.
Proof.
  intros Hwf. unfold create.
  destruct (disk w !! file_path); [|done].
  destruct (copy2 _ _ _ _) as [[|] d']; [|done].
  by apply aput_at_keys_NoDup.
Qed.

Lemma files_wf_update now w file_id md : wf w → wf (update_metadata now w file_id md).2.
Proof.
  intros Hwf. unfold update_metadata.
  destruct (aget file_id (files w)); [|done]. by apply aput_at_keys_NoDup.
Qed.

Lemma files_wf_delete unlink_ok w file_id : wf w → wf (delete unlink_ok w file_id).2.
Proof.
  intros Hwf. unfold delete.
  destruct (aget file_id (files w)) as [info|]; [|done].
  destruct (disk w !! stored_path info); [destruct (unlink_ok _)|];
    try done; by apply adel_keys_NoDup.
Qed.

(** A failed [create] under an id that is not tracked leaves on disk every
  file that a tracked entry points to as it was: what [download] copies
  for a tracked id is what it copied before. *)
Lemma failed_create_keeps_stored_files uuid_hex now o w file_path md file_id info :
  stored_by_create w →
  String.length (_generate_adobe_id uuid_hex) = 22%nat →
  read_by_id w (_generate_adobe_id uuid_hex) = None →
  (create uuid_hex now o w file_path md).1 = None →
  read_by_id w file_id = Some info →
  disk (create uuid_hex now o w file_path md).2 !! stored_path info
  = disk w !! stored_path info.
Proof.
  intros Hpaths Hlen Hnew Hfail Hinfo.
  unfold read_by_id in *. apply aget_Some_elem in Hinfo as Hin.
  unfold stored_by_create in Hpaths. rewrite Forall_forall in Hpaths.
  destruct (Hpaths _ Hin) as [Hlen' Hpath]. simpl in Hlen', Hpath.
  assert (stored_path info
          ≠ dest_path_of w (_generate_adobe_id uuid_hex) (path_name file_path)) as Hne.
  { rewrite Hpath. intros Heq. apply dest_path_of_inj in Heq; [|congruence].
    subst file_id. congruence. }
  revert Hfail. unfold create, copy2.
  destruct (disk w !! file_path) as [content|]; [|done].
  case_decide; [done|].
  destruct o as [|[n|]]; simpl; [done | | done].
  intros _. by rewrite lookup_insert_ne.
Qed.

End FileWf.

(** * Further properties of the code *)

(** ** Redis store: one live record per email *)

Section NoDupMiddle.
Context {A : Type}.

Lemma NoDup_middle_replace (l1 l2 : list A) (x y : A) :
  NoDup (l1 ++ x :: l2) → y ∉ l1 → y ∉ l2 → NoDup (l1 ++ y :: l2).
Proof.
  intros (H1 & H2 & [H3 H4]%NoDup_cons)%NoDup_app Hy1 Hy2.
  apply NoDup_app. split_and!; [done | |].
  - intros z Hz [->|Hz']%elem_of_cons; [done|]. apply (H2 z Hz). by right.
  - by apply NoDup_cons.
Qed.

Lemma NoDup_middle_insert (l1 l2 : list A) (y : A) :
  NoDup (l1 ++ l2) → y ∉ l1 ++ l2 → NoDup (l1 ++ y :: l2).
Proof.
  intros (H1 & H2 & H3)%NoDup_app Hy.
  apply NoDup_app. split_and!; [done | |].
  - intros z Hz [->|Hz']%elem_of_cons; [|by apply (H2 z)].
    apply Hy, elem_of_app. by left.
  - apply NoDup_cons. split; [|done]. intros Hin. apply Hy, elem_of_app. by right.
Qed.

Lemma NoDup_middle_remove (l1 l2 : list A) (x : A) :
  NoDup (l1 ++ x :: l2) → NoDup (l1 ++ l2).
Proof.
  intros (H1 & H2 & [H3 H4]%NoDup_cons)%NoDup_app.
  apply NoDup_app. split_and!; [done | | done].
  intros z Hz Hz'. apply (H2 z Hz). by right.
Qed.

End NoDupMiddle.

Section FirstEntry.
Context {K V : Type} `{EqDecision K}.

Lemma aget_Some_split (k : K) (v : V) (l : list (K * V)) :
  aget k l = Some v → ∃ l1 l2, l = l1 ++ (k, v) :: l2 ∧ k ∉ akeys l1.
Proof.
  induction l as [|[k0 v0] t IH]; simpl; [done|].
  case_decide as E.
  - intros [= ->]. subst k0. exists [], t. split; [done | apply not_elem_of_nil].
  - intros (l1 & l2 & -> & Hk)%IH. exists ((k0, v0) :: l1), l2. split; [done|].
    unfold akeys. rewrite fmap_cons. apply not_elem_of_cons. by split.
Qed.

End FirstEntry.

Section RedisEmails.
Import RedisSDFS Keeps.

Implicit Types (h : hash).

Lemma redis_emails_app (l1 l2 : hash) :
  redis_emails (l1 ++ l2) = redis_emails l1 ++ redis_emails l2.
Proof. unfold redis_emails, find_all, hgetall. by rewrite !fmap_app. Qed.

Lemma redis_emails_cons k r (l : hash) :
  redis_emails ((k, r) :: l) = identity_email r :: redis_emails l.
Proof. done. Qed.

Lemma find_by_email_None_emails h email :
  find_by_email h email = None ↔ email ∉ redis_emails h.
Proof.
  rewrite find_by_email_None. unfold redis_emails, find_all, hgetall.
  rewrite Forall_forall. split.
  - intros Hall (r & -> & ([k r'] & -> & Hin)%list_elem_of_fmap)%list_elem_of_fmap.
    by apply (Hall _ Hin).
  - intros Hnot e Hin He. apply Hnot. rewrite <- He.
    apply list_elem_of_fmap. exists e.2. split; [done|].
    apply list_elem_of_fmap. by exists e.
Qed.

End RedisEmails.

Section RedisKeeps.
Import RedisSDFS Keeps.

Implicit Types (h : hash).

Lemma create_record_fields env data rec :
  _create_adobe_xdm_record env data = Some rec →
  at_id rec = _generate_adobe_id (uuid_hex env)
  ∧ identity_email rec = d_email data
  ∧ createdAt rec = t_created env
  ∧ updatedAt rec = t_updated env.
Proof.
  unfold _create_adobe_xdm_record.
  destruct (if decide (d_name data = "") then _ else _); simpl; [|done].
  by intros [= <-].
Qed.

Lemma redis_emails_aput_at pos k r h :
  NoDup (redis_emails h) → identity_email r ∉ redis_emails h →
  NoDup (redis_emails (aput_at pos k r h)).
Proof.
  intros Hnd Hnew. unfold aput_at. destruct (aget k h) as [old|] eqn:E.
  - apply aget_Some_split in E as (l1 & l2 & -> & Hk).
    rewrite areplace_middle by done.
    rewrite redis_emails_app, redis_emails_cons in *.
    eapply NoDup_middle_replace; [exact Hnd | |].
    + intros Hin. apply Hnew, elem_of_app. by left.
    + intros Hin. apply Hnew, elem_of_app. right. by right.
  - rewrite redis_emails_app, redis_emails_cons.
    rewrite <- (take_drop pos h), redis_emails_app in Hnd, Hnew.
    by apply NoDup_middle_insert.
Qed.

Lemma redis_emails_step h o :
  wf h → NoDup (redis_emails h) → NoDup (redis_emails (step h o)).
Proof.
  intros Hwf Hnd. destruct o as [env name email age phone address
                                 | now slot email upd | email | ]; simpl.
  - unfold create_user. destruct (find_by_email h email) eqn:Hf; [done|].
    unfold create.
    destruct (_create_adobe_xdm_record env _) as [rec|] eqn:Hrec; simpl; [|done].
    apply create_record_fields in Hrec as (_ & He & _). simpl in He.
    apply redis_emails_aput_at; [done|]. rewrite He.
    by apply find_by_email_None_emails.
  - unfold update_user. destruct (find_by_email h email) as [r|] eqn:Hf.
    + destruct (find_by_email_split h email r Hwf Hf) as (l1 & l2 & -> & Hall & He & Hk).
      rewrite update_by_email_first by done. simpl.
      by rewrite redis_emails_app, redis_emails_cons in *.
    + by rewrite update_by_email_absent.
  - unfold delete_user. destruct (find_by_email h email) as [r|] eqn:Hf.
    + destruct (find_by_email_split h email r Hwf Hf) as (l1 & l2 & -> & Hall & He & Hk).
      destruct Hwf as [Hkeys _].
      rewrite delete_by_email_first by done. simpl.
      rewrite redis_emails_app, redis_emails_cons in Hnd. rewrite redis_emails_app.
      by eapply NoDup_middle_remove.
    + by rewrite delete_by_email_absent.
  - apply NoDup_nil_2.
Qed.

Lemma redis_run_invariant (ops : list op) (h : hash) :
  wf h → NoDup (redis_emails h) →
  wf (run h ops) ∧ NoDup (redis_emails (run h ops)).
Proof.
  revert h. induction ops as [|o ops IH]; intros h Hwf Hnd; [done|].
  apply IH; [by apply redis_wf_step | by apply redis_emails_step].
Qed.

(** X1: a hash in which every field is the [@id] of its record and no two
  records share an email stays so through any sequence of [create_user],
  [update_user], [delete_user] and [delete_all_users]. *)
Theorem redis_run_keeps_unique_emails (ops : list op) (h : hash) :
  wf h → NoDup (redis_emails h) →
  wf (run h ops) ∧ NoDup (redis_emails (run h ops)).
Proof. apply redis_run_invariant. Qed.

Lemma redis_run_keeps_witness :
  wf (run [] [CreateUser Samples.env1 "Ann Mary Lee" "ann@x.com" 30 (Some "555") None;
              CreateUser Samples.env2 "Ann Lee" "ann@x.com" 31 None None;
              CreateUser Samples.env2 "Bob Ray" "bob@x.com" 41 None None])
  ∧ NoDup (redis_emails
             (run [] [CreateUser Samples.env1 "Ann Mary Lee" "ann@x.com" 30
                        (Some "555") None;
                      CreateUser Samples.env2 "Ann Lee" "ann@x.com" 31 None None;
                      CreateUser Samples.env2 "Bob Ray" "bob@x.com" 41 None None])).
Proof.
  apply redis_run_keeps_unique_emails; [apply redis_wf_empty | apply NoDup_nil_2].
Defined.

(** X2: in such a hash, after [delete_user] no read by that email finds a
  record, whether the delete found one or not. *)
Theorem redis_delete_then_absent (h : hash) (email : string) :
  wf h → NoDup (redis_emails h) →
  get_user_by_email (delete_user h email).2 email = None.
Proof.
  intros Hwf Hnd. unfold get_user_by_email, delete_user.
  destruct (find_by_email h email) as [r|] eqn:Hf.
  - destruct (find_by_email_split h email r Hwf Hf) as (l1 & l2 & -> & Hall & He & Hk).
    destruct Hwf as [Hkeys _].
    rewrite delete_by_email_first by done. simpl.
    apply find_by_email_None_emails.
    rewrite redis_emails_app, redis_emails_cons, He in Hnd. rewrite redis_emails_app.
    apply NoDup_app in Hnd as (_ & H2 & [H3 _]%NoDup_cons).
    intros [Hin|Hin]%elem_of_app; [|done]. apply (H2 _ Hin). left.
  - by rewrite delete_by_email_absent.
Qed.

Lemma redis_delete_then_absent_witness :
  get_user_by_email (delete_user Samples.redis_ann_bob "bob@x.com").2 "bob@x.com" = None.
Proof.
  apply redis_delete_then_absent; [exact redis_ann_bob_wf|].
  vm_compute. apply NoDup_cons. split; [|apply NoDup_singleton].
  intros [E|[]%elem_of_nil]%elem_of_cons. discriminate E.
Defined.




End RedisKeeps.

(** ** Redis store: calls about one email leave the others alone *)

Section RedisFrame.
Import RedisSDFS Keeps.

Implicit Types (h : hash).




End RedisFrame.

(** ** Redis store: when [create_user] answers [None] *)

Section RedisCreateAnswer.
Import RedisSDFS Keeps.

Lemma split_from_nil cur s :
  PyStr.split_from cur s = [] ↔ cur = "" ∧ all_blank s.
Proof.
  unfold all_blank. revert cur. induction s as [|c s IH]; intros cur; simpl.
  - case_decide; split; try done; [by intros [? _]..].
  - destruct (PyStr.isspace c) eqn:Hc.
    + case_decide as E.
      * rewrite IH. split; [intros [_ ?]; by split; [|constructor]|].
        intros [_ [_ ?]%Forall_cons]. done.
      * split; [done | by intros [? _]].
    + rewrite IH. split.
      * intros [E _]. by destruct cur.
      * intros [_ [Hc' _]%Forall_cons]. congruence.
Qed.

Lemma split_nil s : PyStr.split s = [] ↔ all_blank s.
Proof. unfold PyStr.split. rewrite split_from_nil. naive_solver. Qed.

(** X5: [create_user] answers [None] and leaves the hash as it is exactly
  when the email is that of a live record or the name is blank without
  being empty (the [IndexError] of [split()[0]], swallowed by the
  wrapper); in every other case it answers the generated id, ["adobe_"]
  followed by the first 16 characters of the uuid token. *)
Theorem redis_create_user_answer (env : CreateEnv) (h : hash)
    (name email : string) (age : Z) (phone address : option string) :
  (is_Some (find_by_email h email) ∨ (name ≠ "" ∧ all_blank name) →
   create_user env h name email age phone address = (None, h))
  ∧ (find_by_email h email = None → (name = "" ∨ ¬ all_blank name) →
     (create_user env h name email age phone address).1
     = Some ("adobe_" +:+ PyStr.prefix 16 (uuid_hex env))).
Proof.
  unfold create_user, create, _create_adobe_xdm_record. simpl. split.
  - intros [[r ->]|[Hne Hblank]]; [done|].
    destruct (find_by_email h email); [done|].
    rewrite decide_False by done.
    apply split_nil in Hblank. by rewrite Hblank.
  - intros -> Hname. case_decide as E; [done|].
    destruct Hname as [?|Hnb]; [done|].
    destruct (PyStr.split name) eqn:Hs; [|done].
    exfalso. by apply Hnb, split_nil.
Qed.

Lemma redis_create_user_answer_witness :
  create_user Samples.env1 Samples.redis_ann "   " "zed@x.com" 30 None None
  = (None, Samples.redis_ann).
Proof.
  apply redis_create_user_answer. right. split; [discriminate|].
  vm_compute. by repeat constructor.
Defined.

End RedisCreateAnswer.

(** ** Redis store: the name that is shown *)

Section ShownName.
Import Keeps.

Lemma chars_append (a b : string) :
  list_ascii_of_string (a +:+ b) = list_ascii_of_string a ++ list_ascii_of_string b.
Proof. induction a as [|c a IH]; simpl; [done | by rewrite IH]. Qed.

Lemma append_cons (c : ascii) (a b : string) : String c a +:+ b = String c (a +:+ b).
Proof. done. Qed.

Lemma append_empty_l (b : string) : "" +:+ b = b.
Proof. done. Qed.

Lemma append_empty_r (a : string) : a +:+ "" = a.
Proof. induction a as [|c a IH]; [done|]. by rewrite append_cons, IH. Qed.

Lemma append_assoc (a b c : string) : (a +:+ b) +:+ c = a +:+ (b +:+ c).
Proof. induction a as [|x a IH]; [done|]. by rewrite !append_cons, IH. Qed.

Lemma word_append_char cur c :
  Forall (λ c, PyStr.isspace c = false) (list_ascii_of_string cur) →
  PyStr.isspace c = false →
  word (cur +:+ String c "").
Proof.
  intros Hcur Hc. split.
  - by destruct cur.
  - rewrite chars_append. apply Forall_app. split; [done|]. by repeat constructor.
Qed.

(** Every part of [s.split()] is a word. *)
Lemma split_from_words cur s :
  Forall (λ c, PyStr.isspace c = false) (list_ascii_of_string cur) →
  Forall word (PyStr.split_from cur s).
Proof.
  revert cur. induction s as [|c s IH]; intros cur Hcur; simpl.
  - case_decide; [done|]. by repeat constructor.
  - destruct (PyStr.isspace c) eqn:Hc.
    + case_decide.
      * by apply IH.
      * constructor; [done|]. by apply IH.
    + apply IH. by apply word_append_char.
Qed.

Lemma split_words s : Forall word (PyStr.split s).
Proof. by apply split_from_words. Qed.

Lemma lstrip_word_start (a s : string) : word a → PyStr.lstrip (a +:+ s) = a +:+ s.
Proof.
  intros [Hne Hall]. destruct a as [|c a]; [done|]. simpl in Hall.
  apply Forall_cons in Hall as [Hc _]. rewrite append_cons. simpl. by rewrite Hc.
Qed.

Lemma rstrip_chars (s : string) (l : list ascii) (c : ascii) :
  list_ascii_of_string s = l ++ [c] → PyStr.isspace c = false → PyStr.rstrip s = s.
Proof.
  intros Hs Hc. unfold PyStr.rstrip. rewrite Hs, rev_app_distr. simpl. rewrite Hc.
  change (String c (string_of_list_ascii (rev l)))
    with (string_of_list_ascii (c :: rev l)).
  rewrite list_ascii_of_string_of_list_ascii. simpl.
  rewrite rev_involutive, <- Hs. apply string_of_list_ascii_of_string.
Qed.

Lemma rstrip_word_end (s a : string) : word a → PyStr.rstrip (s +:+ a) = s +:+ a.
Proof.
  intros [Hne Hall].
  assert (list_ascii_of_string a ≠ []) as Hchars by by destruct a.
  destruct (exists_last Hchars) as (l & c & Ha). rewrite Ha in Hall.
  apply (rstrip_chars _ (list_ascii_of_string s ++ l) c).
  - by rewrite chars_append, Ha, app_assoc.
  - apply Forall_app in Hall as [_ [? _]%Forall_cons]. done.
Qed.

Lemma rstrip_space_end (a : string) : PyStr.rstrip (a +:+ " ") = PyStr.rstrip a.
Proof. unfold PyStr.rstrip. rewrite chars_append, rev_app_distr. done. Qed.

Lemma last_word (rest : list string) (b : string) :
  Forall word (b :: rest) → word (List.last (b :: rest) "").
Proof.
  revert b. induction rest as [|c rest IH]; intros b [Hb Hrest]%Forall_cons; [done|].
  change (List.last (b :: c :: rest) "") with (List.last (c :: rest) "").
  by apply IH.
Qed.

Lemma shown_parts (parts : list string) :
  Forall word parts →
  PyStr.strip (PyStr.first_or_empty parts +:+ " " +:+ PyStr.last_or_empty parts)
  = first_and_last parts.
Proof.
  destruct parts as [|a [|b rest]]; [done | |].
  - intros [Ha _]%Forall_cons. simpl. unfold PyStr.strip.
    rewrite lstrip_word_start by done.
    rewrite rstrip_space_end. rewrite <- (rstrip_word_end "" a Ha) at 2. done.
  - intros [Ha Hrest]%Forall_cons.
    change (PyStr.first_or_empty (a :: b :: rest)) with a.
    change (PyStr.last_or_empty (a :: b :: rest)) with (List.last (b :: rest) "").
    change (first_and_last (a :: b :: rest)) with (a +:+ " " +:+ List.last (b :: rest) "").
    unfold PyStr.strip. rewrite lstrip_word_start by done.
    rewrite <- append_assoc. apply rstrip_word_end. by apply last_word.
Qed.

Lemma shown_created env data rec :
  RedisSDFS._create_adobe_xdm_record env data = Some rec →
  RedisSDFS.display_name rec = first_and_last (PyStr.split (RedisSDFS.d_name data)).
Proof.
  unfold RedisSDFS._create_adobe_xdm_record.
  pose proof (split_words (RedisSDFS.d_name data)) as Hw.
  case_decide as E; simpl.
  - intros [= <-]. rewrite E. done.
  - destruct (PyStr.split (RedisSDFS.d_name data)) as [|p parts] eqn:Hs; simpl; [done|].
    intros [= <-]. unfold RedisSDFS.display_name. simpl.
    exact (shown_parts (p :: parts) Hw).
Qed.

(** X6: the name that [get_user_by_email] and [get_all_users] show for a
  record is the first word of the name it was created or last renamed
  with, followed - when that name had several words - by one space and its
  last word; whatever blanks surrounded or separated the words are gone. *)
Theorem redis_display_name :
  (∀ env data rec,
     RedisSDFS._create_adobe_xdm_record env data = Some rec →
     RedisSDFS.display_name rec = first_and_last (PyStr.split (RedisSDFS.d_name data)))
  ∧ (∀ upd now r v,
       RedisSDFS.u_name upd = Some v →
       RedisSDFS.display_name (RedisSDFS.apply_update upd now r)
       = first_and_last (PyStr.split v)).
Proof.
  split.
  - apply shown_created.
  - intros upd now r v Hv. unfold RedisSDFS.display_name. simpl. rewrite Hv. simpl.
    apply shown_parts, split_words.
Qed.

Lemma redis_display_name_witness :
  RedisSDFS.display_name (RedisSDFS.apply_update Samples.rename_ann 300 
     {| RedisSDFS.at_id := "adobe_0"; RedisSDFS.identity_email := "ann@x.com";
        RedisSDFS.person :=
          {| RedisSDFS.name := {| RedisSDFS.firstName := "A"; RedisSDFS.lastName := "" |};
             RedisSDFS.age := 1; RedisSDFS.phone := ""; RedisSDFS.fullAddress := "" |};
        RedisSDFS.timestamp := 0; RedisSDFS.createdAt := 0; RedisSDFS.updatedAt := 0 |})
  = first_and_last (PyStr.split "Ann Mary Lee").
Proof. by apply (proj2 redis_display_name). Defined.

End ShownName.

(** ** File store: upload, download, delete *)

Section FileRoundTrips.
Import FileSDFS Keeps.

Implicit Types (w : World).

(** X8: an upload that succeeds, to a destination at which nothing
  existed, records the name of the source and the number of its bytes and
  keeps a copy under the stored path. A download of the new id to a path
  at which nothing exists answers [True] exactly when its copy completes;
  it has then written that same content there and touched no other
  file. *)
Theorem file_upload_then_download (uuid_hex : string) (now : Z) (o : copy_outcome)
    (w w1 : World) (file_path : string) (md : option (gmap string string))
    (id content : string) :
  disk w !! file_path = Some content →
  disk w !! dest_path_of w (_generate_adobe_id uuid_hex) (path_name file_path) = None →
  create uuid_hex now o w file_path md = (Some id, w1) →
  ∃ info, read_by_id w1 id = Some info
          ∧ original_name info = path_name file_path
          ∧ size_bytes info = String.length content
          ∧ metadata info = default ∅ md
          ∧ disk w1 !! stored_path info = Some content
          ∧ ∀ dest, disk w1 !! dest = None →
                    (∀ o', (download o' w1 id dest).1 = true ↔ o' = CopyDone)
                    ∧ disk (download CopyDone w1 id dest).2 !! dest = Some content
                    ∧ ∀ p, p ≠ dest →
                           disk (download CopyDone w1 id dest).2 !! p = disk w1 !! p.
Proof.
  intros Hsrc Hfree. unfold create, copy2. rewrite Hsrc.
  case_decide as Hsame; [done|].
  destruct o as [|[n|]]; simpl; [|done..]. intros [= <- <-].
  eexists. unfold read_by_id, dict_set. simpl. rewrite aget_aput_eq.
  split; [done|]. simpl. split_and!; try done.
  - by rewrite lookup_insert_eq.
  - intros dest Hdest. unfold download, copy2. simpl.
    rewrite aget_aput_eq. simpl. rewrite lookup_insert_eq.
    assert (dest_path_of w (_generate_adobe_id uuid_hex) (path_name file_path) ≠ dest)
      as Hne.
    { intros <-. by rewrite lookup_insert_eq in Hdest. }
    split_and!.
    + intros o'. rewrite decide_False by done.
      destruct o' as [|[n|]]; simpl; split; done.
    + rewrite decide_False by done. simpl. by rewrite lookup_insert_eq.
    + intros p Hp. rewrite decide_False by done. simpl. by rewrite lookup_insert_ne.
Qed.

Lemma file_upload_then_download_witness :
  ∃ info, read_by_id Samples.files_report Samples.report_id = Some info
          ∧ size_bytes info = 17%nat
          ∧ disk (download CopyDone Samples.files_report Samples.report_id
                    "downloads/report.txt").2 !! "downloads/report.txt"
            = Some "quarterly numbers".
Proof.
  destruct (file_upload_then_download "0123456789abcdef0123456789abcdef" 100%Z
              CopyDone Samples.files_new Samples.files_report "/home/u/report.txt"
              (Some Samples.report_md) Samples.report_id "quarterly numbers")
    as (info & Hinfo & _ & Hsize & _ & _ & Hdl);
    [reflexivity | reflexivity | reflexivity |].
  exists info. split_and!; [done | done |].
  apply Hdl. reflexivity.
Defined.

(** X9: an upload under an id that is not tracked, to a destination that
  did not exist, is undone by [delete] when the unlink goes through: index
  and disk are again what they were. *)
Theorem file_create_then_delete (uuid_hex : string) (now : Z) (w w1 : World)
    (file_path : string) (md : option (gmap string string)) (id : string)
    (unlink_ok : string → bool) :
  create uuid_hex now CopyDone w file_path md = (Some id, w1) →
  read_by_id w id = None →
  disk w !! dest_path_of w id (path_name file_path) = None →
  unlink_ok (dest_path_of w id (path_name file_path)) = true →
  count w1 = S (count w) ∧ delete unlink_ok w1 id = (true, w).
Proof.
  unfold create, copy2, read_by_id.
  destruct (disk w !! file_path) as [content|]; [|done].
  case_decide as Hsame; [done|]. intros [= <- <-] Hnew Hdest Hok.
  unfold count, delete, dict_set. simpl. rewrite aput_at_end by done. split.
  { rewrite length_app. simpl. lia. }
  rewrite aget_app, Hnew. simpl. rewrite decide_True by done. simpl.
  rewrite lookup_insert_eq, Hok. f_equal.
  destruct w as [sp fs d]. simpl in *. f_equal.
  - clear Hdest Hok Hsame. induction fs as [|[k v] t IH]; simpl.
    + by rewrite adel_cons, decide_True.
    + simpl in Hnew. case_decide as E; [done|].
      rewrite adel_cons, decide_False by done. f_equal. by apply IH.
  - by apply delete_insert_id.
Qed.

Lemma file_create_then_delete_witness :
  delete Samples.unlink_granted Samples.files_report Samples.report_id
  = (true, Samples.files_new).
Proof.
  apply (file_create_then_delete "0123456789abcdef0123456789abcdef" 100%Z
           Samples.files_new Samples.files_report "/home/u/report.txt"
           (Some Samples.report_md) Samples.report_id Samples.unlink_granted);
    reflexivity.
Defined.

End FileRoundTrips.

(** ** File store: what [delete_all] leaves behind *)

Section FilterIn.
Context {A : Type} (P Q : A → Prop) `{∀ x, Decision (P x)} `{∀ x, Decision (Q x)}.

Lemma filter_ext_in (l : list A) :
  (∀ x, x ∈ l → (P x ↔ Q x)) → filter P l = filter Q l.
Proof.
  induction l as [|a l IH]; intros Hext; [done|].
  rewrite !filter_cons.
  assert (P a ↔ Q a) as Ha by (apply Hext; left).
  rewrite IH by (intros x Hx; apply Hext; by right).
  destruct (decide (P a)), (decide (Q a)); naive_solver.
Qed.

Lemma filter_all_in (l : list A) : (∀ x, x ∈ l → P x) → filter P l = l.
Proof.
  induction l as [|a l IH]; intros Hall; [done|].
  rewrite filter_cons_True by (apply Hall; left).
  f_equal. apply IH. intros x Hx. apply Hall. by right.
Qed.

End FilterIn.

Section FileDeleteAllSurvivors.
Import FileSDFS Keeps.

Variable unlink_ok : string → bool.

Implicit Types (w : World).

Lemma delete_one_survivors w i :
  wf w →
  files (delete unlink_ok w i).2
  = filter (λ e, e.1 ≠ i ∨ stuck unlink_ok (disk w) e.2) (files w)
  ∧ ∀ p, unlink_ok p = false → disk (delete unlink_ok w i).2 !! p = disk w !! p.
Proof.
  intros Hwf. unfold delete.
  destruct (aget i (files w)) as [info|] eqn:Hi.
  - assert (∀ e, e ∈ files w → e.1 = i → e.2 = info) as Honly.
    { intros [k v] Hin Hk. simpl in *. subst k.
      apply (aget_elem_NoDup _ _ _ Hwf) in Hin. congruence. }
    destruct (disk w !! stored_path info) as [c|] eqn:Hd.
    + destruct (unlink_ok (stored_path info)) eqn:Hu; simpl.
      * split.
        -- unfold adel. apply filter_ext_in. intros e He. split; [by left|].
           intros [?|[_ Hst]]; [done|]. intros Hk.
           rewrite (Honly e He Hk) in Hst. congruence.
        -- intros p Hp. apply lookup_delete_ne. congruence.
      * split; [|done]. symmetry. apply filter_all_in. intros e He.
        destruct (decide (e.1 = i)) as [Hk|Hk]; [|by left].
        right. rewrite (Honly e He Hk). split; [by rewrite Hd | done].
    + simpl. split; [|done].
      unfold adel. apply filter_ext_in. intros e He. split; [by left|].
      intros [?|[[c Hc] _]]; [done|]. intros Hk.
      rewrite (Honly e He Hk) in Hc. congruence.
  - simpl. split; [|done]. symmetry. apply filter_all_in. intros e He. left.
    intros Hk. apply aget_None in Hi. apply Hi. subst i.
    apply list_elem_of_fmap. by exists e.
Qed.

Lemma stuck_same_disk (d d' : gmap string string) info :
  (∀ p, unlink_ok p = false → d' !! p = d !! p) →
  stuck unlink_ok d' info ↔ stuck unlink_ok d info.
Proof.
  intros Hsame. unfold stuck. split; intros [Hd Hu]; (split; [|done]).
  - by rewrite <- Hsame.
  - by rewrite Hsame.
Qed.

Lemma delete_each_survivors ids w :
  wf w →
  files (delete_each unlink_ok w ids)
  = filter (λ e, e.1 ∉ ids ∨ stuck unlink_ok (disk w) e.2) (files w)
  ∧ ∀ p, unlink_ok p = false → disk (delete_each unlink_ok w ids) !! p = disk w !! p.
Proof.
  revert w. induction ids as [|i ids IH]; intros w Hwf.
  - split; [|done]. symmetry. apply filter_all_in. intros e _. left.
    apply not_elem_of_nil.
  - change (delete_each unlink_ok w (i :: ids))
      with (delete_each unlink_ok (delete unlink_ok w i).2 ids).
    destruct (delete_one_survivors w i Hwf) as [Hfiles Hdisk].
    destruct (IH _ (files_wf_delete unlink_ok w i Hwf)) as [Hfiles' Hdisk'].
    split.
    + rewrite Hfiles', Hfiles, list_filter_filter.
      apply list_filter_iff. intros e.
      rewrite (stuck_same_disk (disk w) _ e.2 Hdisk), not_elem_of_cons.
      naive_solver.
    + intros p Hp. by rewrite Hdisk', Hdisk.
Qed.

(** X10: [delete_all] answers the number of entries it started with,
  whatever becomes of them; the entries left in the index afterwards are
  exactly those whose stored file is on disk and cannot be unlinked, in
  their order, so [count] is then the number of those. *)
Theorem file_delete_all_survivors (w : World) :
  wf w →
  (delete_all unlink_ok w).1 = count w
  ∧ files (delete_all unlink_ok w).2
    = filter (λ e, stuck unlink_ok (disk w) e.2) (files w)
  ∧ count (delete_all unlink_ok w).2
    = length (filter (stuck unlink_ok (disk w)) (read_all w)).
Proof.
  intros Hwf. unfold delete_all. simpl.
  destruct (delete_each_survivors (akeys (files w)) w Hwf) as [Hfiles _].
  assert (files (delete_each unlink_ok w (akeys (files w)))
          = filter (λ e, stuck unlink_ok (disk w) e.2) (files w)) as Hleft.
  { rewrite Hfiles. apply filter_ext_in. intros e He. split; [|by right].
    intros [Hnot|?]; [|done]. exfalso. apply Hnot.
    apply list_elem_of_fmap. by exists e. }
  split_and!; [done | done |].
  unfold count, read_all, avalues. rewrite Hleft.
  clear. induction (files w) as [|[k v] t IH]; [done|].
  rewrite fmap_cons, !filter_cons. simpl.
  destruct (decide (stuck unlink_ok (disk w) v)); simpl; by rewrite IH.
Qed.

End FileDeleteAllSurvivors.

Lemma file_delete_all_survivors_witness :
  FileSDFS.files (FileSDFS.delete_all Samples.unlink_granted Samples.files_report).2
  = filter (λ e, Keeps.stuck Samples.unlink_granted
                   (FileSDFS.disk Samples.files_report) e.2)
           (FileSDFS.files Samples.files_report).
Proof.
  apply (file_delete_all_survivors Samples.unlink_granted Samples.files_report
           files_report_wf).
Defined.

(** ** File store: one stored file per entry *)

Section FileStoredPaths.
Import FileSDFS Keeps.

Implicit Types (w : World).

Lemma prefix_length (n : nat) (s : string) :
  String.length (PyStr.prefix n s) = Nat.min n (String.length s).
Proof.
  unfold PyStr.prefix. revert s. induction n as [|n IH]; intros [|c s]; simpl;
    try done. by rewrite IH.
Qed.

Lemma adobe_id_length (uuid_hex : string) :
  (16 ≤ String.length uuid_hex)%nat → String.length (_generate_adobe_id uuid_hex) = 22%nat.
Proof.
  intros Hlen. unfold _generate_adobe_id.
  rewrite !append_cons, append_empty_l. simpl. rewrite prefix_length. lia.
Qed.

Lemma stored_by_create_files w w' :
  storage_path w' = storage_path w →
  (∀ e, e ∈ files w' →
        e ∈ files w
        ∨ (String.length e.1 = 22%nat
           ∧ stored_path e.2 = dest_path_of w e.1 (original_name e.2))) →
  stored_by_create w → stored_by_create w'.
Proof.
  intros Hsp Hsub Hby. unfold stored_by_create in *. rewrite Forall_forall in *.
  intros e He. unfold dest_path_of in *. rewrite Hsp.
  destruct (Hsub e He) as [Hold|Hnew]; [by apply Hby | done].
Qed.

Lemma stored_by_create_delete unlink_ok w i :
  stored_by_create w → stored_by_create (delete unlink_ok w i).2.
Proof.
  intros Hby. unfold delete.
  destruct (aget i (files w)) as [info|]; [|done].
  destruct (disk w !! stored_path info); [destruct (unlink_ok _)|]; try done;
    (apply (stored_by_create_files w); [done | | exact Hby]);
    simpl; intros e [_ He]%adel_elem; by left.
Qed.

Lemma stored_by_create_delete_each unlink_ok ids w :
  stored_by_create w → stored_by_create (delete_each unlink_ok w ids).
Proof.
  revert w. induction ids as [|i ids IH]; intros w Hby; [done|].
  change (delete_each unlink_ok w (i :: ids))
    with (delete_each unlink_ok (delete unlink_ok w i).2 ids).
  by apply IH, stored_by_create_delete.
Qed.

Lemma files_wf_delete_each unlink_ok ids w : wf w → wf (delete_each unlink_ok w ids).
Proof.
  revert w. induction ids as [|i ids IH]; intros w Hwf; [done|].
  change (delete_each unlink_ok w (i :: ids))
    with (delete_each unlink_ok (delete unlink_ok w i).2 ids).
  by apply IH, files_wf_delete.
Qed.

Lemma file_step_keeps w o :
  token_ok o → wf w → stored_by_create w →
  wf (step w o) ∧ stored_by_create (step w o).
Proof.
  intros Htok Hwf Hby.
  destruct o as [uuid_hex now o file_path md | o file_id dest
                 | now file_id md | unlink_ok file_id | unlink_ok]; simpl.
  - split; [by apply files_wf_create|]. unfold create.
    destruct (disk w !! file_path) as [content|]; [|done].
    destruct (copy2 _ _ _ _) as [[|] d']; simpl.
    + apply (stored_by_create_files w); [done | | exact Hby]. simpl.
      intros e [->|He]%elem_of_aput_at; [right | by left]. simpl.
      split; [apply adobe_id_length; by destruct Htok | done].
    + apply (stored_by_create_files w); [done | | exact Hby]. by left.
  - unfold download. destruct (aget file_id (files w)); [|done].
    destruct (copy2 _ _ _ _) as [ok d']. simpl. split; [done|].
    apply (stored_by_create_files w); [done | | exact Hby]. by left.
  - split; [by apply files_wf_update|]. unfold update_metadata.
    destruct (aget file_id (files w)) as [info|] eqn:Hinfo; [|done]. simpl.
    apply (stored_by_create_files w); [done | | exact Hby]. simpl.
    intros e [->|He]%elem_of_aput_at; [right | by left]. simpl.
    apply aget_Some_elem in Hinfo.
    unfold stored_by_create in Hby. rewrite Forall_forall in Hby.
    exact (Hby _ Hinfo).
  - split; [by apply files_wf_delete | by apply stored_by_create_delete].
  - split; [by apply files_wf_delete_each | by apply stored_by_create_delete_each].
Qed.

Lemma stored_paths_NoDup w : wf w → stored_by_create w → NoDup (stored_paths w).
Proof.
  unfold wf, stored_by_create, stored_paths, read_all, avalues, akeys.
  induction (files w) as [|[k v] t IH]; [intros; apply NoDup_nil_2|].
  rewrite !fmap_cons. simpl.
  intros [Hk Ht]%NoDup_cons [[Hlen Hpath] Hall]%Forall_cons. simpl in *.
  apply NoDup_cons. split; [|by apply IH].
  intros (v' & Hv' & ([k' v''] & -> & Hin)%list_elem_of_fmap)%list_elem_of_fmap.
  simpl in *. rewrite Forall_forall in Hall. destruct (Hall _ Hin) as [Hlen' Hpath'].
  simpl in *. rewrite Hpath, Hpath' in Hv'.
  apply dest_path_of_inj in Hv'; [|congruence]. subst k'.
  apply Hk. apply list_elem_of_fmap. by exists (k, v'').
Qed.

(** X11: from a store whose entries were all recorded by [create], any
  sequence of uploads (with uuid tokens of at least 16 hexadecimal digits),
  downloads, metadata updates and deletes leaves an index with one entry
  per id, each stored under the path that [Path(storage_path) / name]
  gives for the name [<id>_<original name>] ([dest_path_of]), and no two
  entries share a stored file. *)
Theorem file_run_keeps_stored_paths (ops : list op) (w : World) :
  Forall token_ok ops → wf w → stored_by_create w →
  wf (run w ops) ∧ stored_by_create (run w ops) ∧ NoDup (stored_paths (run w ops)).
Proof.
  revert w. induction ops as [|o ops IH]; intros w Htok Hwf Hby.
  - split_and!; [done | done | by apply stored_paths_NoDup].
  - apply Forall_cons in Htok as [Ho Hrest].
    destruct (file_step_keeps w o Ho Hwf Hby) as [Hwf' Hby'].
    by apply IH.
Qed.

End FileStoredPaths.

Lemma file_run_keeps_stored_paths_witness :
  NoDup (Keeps.stored_paths
           (FileSDFS.run Samples.files_new
              [FileSDFS.Create "0123456789abcdef0123456789abcdef" 100 FileSDFS.CopyDone
                 "/home/u/report.txt" None;
               FileSDFS.Create "fedcba9876543210fedcba9876543210" 200 FileSDFS.CopyDone
                 "/home/u/report.txt" None;
               FileSDFS.UpdateMetadata 300 Samples.report_id ∅])).
Proof.
  apply file_run_keeps_stored_paths.
  - repeat constructor; simpl; lia.
  - apply NoDup_nil_2.
  - apply Forall_nil_2.
Defined.

(** ** File store: two updates of the metadata *)

Section PutTwice.
Context {K V : Type} `{EqDecision K}.

Lemma areplace_twice (k : K) (v1 v2 : V) (l : list (K * V)) :
  areplace k v2 (areplace k v1 l) = areplace k v2 l.
Proof.
  induction l as [|[k0 v0] t IH]; simpl; [done|].
  case_decide; simpl.
  - by rewrite decide_True.
  - rewrite decide_False by done. by rewrite IH.
Qed.

Lemma aput_at_twice (p1 p2 p3 : nat) (k : K) (v1 v2 : V) (l : list (K * V)) :
  is_Some (aget k l) →
  aput_at p2 k v2 (aput_at p1 k v1 l) = aput_at p3 k v2 l.
Proof.
  intros [v Hv]. unfold aput_at at 2 3. rewrite Hv.
  unfold aput_at. rewrite aget_areplace_eq by by rewrite Hv.
  apply areplace_twice.
Qed.

End PutTwice.

(** X12: two [update_metadata] of one tracked file amount to one, with the
  later mapping laid over the earlier one and the later clock reading;
  an update of an id that is not tracked answers [False] and changes
  nothing. *)
Theorem file_update_twice (now1 now2 : Z) (w : FileSDFS.World) (file_id : string)
    (md1 md2 : gmap string string) :
  (is_Some (FileSDFS.read_by_id w file_id) →
   FileSDFS.update_metadata now2 (FileSDFS.update_metadata now1 w file_id md1).2 file_id md2
   = FileSDFS.update_metadata now2 w file_id (md2 ∪ md1))
  ∧ (FileSDFS.read_by_id w file_id = None →
     FileSDFS.update_metadata now1 w file_id md1 = (false, w)).
Proof.
  unfold FileSDFS.read_by_id, FileSDFS.update_metadata. split.
  - intros [info Hinfo]. rewrite Hinfo. simpl.
    unfold FileSDFS.dict_set. rewrite aget_aput_eq. simpl.
    f_equal. f_equal. rewrite (assoc_L (∪)).
    apply aput_at_twice. by rewrite Hinfo.
  - by intros ->.
Qed.

Lemma file_update_twice_witness :
  FileSDFS.update_metadata 400
    (FileSDFS.update_metadata 300 Samples.files_report Samples.report_id
       {[ "description" := "draft" ]}).2
    Samples.report_id {[ "description" := "final" ]}
  = FileSDFS.update_metadata 400 Samples.files_report Samples.report_id
      ({[ "description" := "final" ]} ∪ {[ "description" := "draft" ]}).
Proof.
  apply (file_update_twice 300 400 Samples.files_report Samples.report_id).
  by eexists.
Defined.

(** ** MongoDB store: what an update writes, what a delete removes *)

Section MongoMore.
Import Mongo.

Implicit Types (coll : collection) (d : gmap string value).

(** X13: [update_user] on a matching document, with fields that the
  driver can send as top-level fields (plain names, integers of 64 bits)
  and that do not name [_id], writes the given fields over the document
  where it stands, keeps every other field - [_id] and, unless given,
  [created_at] too - and sets [updated_at] to the clock reading, also when
  the caller passed an [updated_at] of its own. *)
Theorem mongo_update_user_fields (now : Z) coll (email : string)
    (updated_data : gmap string value) d :
  sendable updated_data = true →
  get_user_by_email coll email = Some d →
  updated_data !! "_id" = None →
  ∃ i n d', coll !! i = Some d
            ∧ update_user now coll email updated_data = Some (n, <[i := d']> coll)
            ∧ d' !! "updated_at" = Some (VTime now)
            ∧ d' !! "_id" = d !! "_id"
            ∧ (∀ k v, k ≠ "updated_at" → updated_data !! k = Some v → d' !! k = Some v)
            ∧ (∀ k, k ≠ "updated_at" → updated_data !! k = None → d' !! k = d !! k).
Proof.
  intros Hs Hd Hid. unfold get_user_by_email in Hd.
  apply find_one_Some in Hd as [i Hi].
  unfold update_user, update_one.
  rewrite sendable_insert by done. rewrite Hi.
  assert (keeps_id (<["updated_at" := VTime now]> updated_data) d = true) as ->.
  { unfold keeps_id. by rewrite lookup_insert_ne, Hid. }
  apply first_match_Some in Hi as (Hi & _).
  eexists i, _, _. split_and!; [done | done | | | |].
  - apply lookup_union_Some_l. by rewrite lookup_insert_eq.
  - rewrite lookup_union_r; [done|]. by rewrite lookup_insert_ne.
  - intros k v Hk Hv. apply lookup_union_Some_l. by rewrite lookup_insert_ne.
  - intros k Hk Hv. rewrite lookup_union_r; [done|]. by rewrite lookup_insert_ne.
Qed.

Lemma mongo_update_user_fields_witness :
  ∃ i n d', Samples.mongo_ann !! i
            = Mongo.get_user_by_email Samples.mongo_ann "ann@x.com"
            ∧ update_user 300 Samples.mongo_ann "ann@x.com"
                {[ "updated_at" := VTime 7; "age" := VInt 31 ]}
              = Some (n, <[i := d']> Samples.mongo_ann)
            ∧ d' !! "updated_at" = Some (VTime 300)
            ∧ d' !! "age" = Some (VInt 31).
Proof.
  destruct (mongo_update_user_fields 300 Samples.mongo_ann "ann@x.com"
              {[ "updated_at" := VTime 7; "age" := VInt 31 ]}
              (default ∅ (get_user_by_email Samples.mongo_ann "ann@x.com")))
    as (i & n & d' & Hi & Hu & Hstamp & _ & Hset & _);
    [vm_compute; reflexivity | reflexivity | reflexivity |].
  exists i, n, d'. split_and!; [ | done | done |].
  - rewrite Hi. reflexivity.
  - apply Hset; [discriminate | reflexivity].
Defined.

(** X14: [delete_user] right after a successful [create_user] with the
  same email removes the new document only if no older document carries
  the email - the collection is then what it was before the two calls;
  otherwise the new document stays, last, and the oldest one with that
  email is the one removed. *)
Theorem mongo_create_then_delete (oid : string) (t_created t_updated : Z) coll coll'
    (name email : string) (age : Z) (phone address : option string) (id : string) :
  create_user oid t_created t_updated coll name email age phone address
  = Some (id, coll') →
  ∃ new, coll' = coll ++ [new]
         ∧ new !! "email" = Some (VStr email)
         ∧ (delete_user coll' email).1 = 1%nat
         ∧ (get_user_by_email coll email = None →
            (delete_user coll' email).2 = coll)
         ∧ (is_Some (get_user_by_email coll email) →
            (delete_user coll' email).2 = (delete_user coll email).2 ++ [new]).
Proof.
  unfold create_user, insert_one. rewrite sendable_user.
  destruct (int64 age); [|done].
  destruct (existsb _ coll); [done|]. intros [= <- <-].
  eexists. split; [done|].
  match goal with |- ?d !! "email" = _ ∧ _ =>
    assert (email_is email d = true) as Hnew by (apply mongo_email_is_true; by vm_compute)
  end.
  split; [by vm_compute|].
  unfold delete_user, get_user_by_email.
  destruct (first_match coll email) as [[i d]|] eqn:Hf.
  - apply mongo_first_match_split in Hf as Hsplit.
    destruct Hsplit as (l1 & l2 & -> & _ & Hd & Hall).
    rewrite <- app_assoc. simpl.
    rewrite !mongo_delete_first by done. simpl.
    split_and!; [done | | ].
    + intros Hnone%find_one_None%first_match_None.
      apply Forall_app in Hnone as [_ [Hx _]%Forall_cons]. congruence.
    + intros _. by rewrite <- app_assoc.
  - apply first_match_None in Hf as Hall.
    rewrite (mongo_delete_first coll [] email _ Hnew Hall). simpl.
    split_and!; [done | by rewrite app_nil_r |].
    intros [x Hx]. apply find_one_Some in Hx as [j Hj]. congruence.
Qed.

Lemma mongo_create_then_delete_witness :
  ∃ new, Samples.mongo_ann_ann = Samples.mongo_ann ++ [new]
         ∧ (delete_user Samples.mongo_ann_ann "ann@x.com").2
           = (delete_user Samples.mongo_ann "ann@x.com").2 ++ [new].
Proof.
  destruct (mongo_create_then_delete "oid2" 200 200 Samples.mongo_ann
              Samples.mongo_ann_ann "Ann" "ann@x.com" 30 None None "oid2")
    as (new & Hnew & _ & _ & _ & Hold); [reflexivity|].
  exists new. split; [done|]. apply Hold. by eexists.
Defined.

End MongoMore.

(** ** The menu of the Redis script *)

Section MenuFacts.
Import RedisSDFS RedisMenu Keeps.

Variable py_int : string → option Z.

Implicit Types (h : hash) (stdin : list string).

Lemma input_Some stdin line rest :
  input stdin = Some (line, rest) → stdin = line :: rest.
Proof. destruct stdin; [done|]. by intros [= -> ->]. Qed.

Ltac read_line H :=
  match type of H with
  | context [input ?s] =>
      let l := fresh "line" in let r := fresh "rest" in let E := fresh "E" in
      destruct (input s) as [[l r]|] eqn:E; simpl in H; [|done];
      apply input_Some in E; subst s
  end.

(** A turn that does not raise has read at least the line of the choice,
  and has left the store as it was or made one of the four calls that
  write. *)
Lemma turn_spec env h stdin go h' stdin' :
  turn py_int env h stdin = Some (go, h', stdin') →
  (length stdin' < length stdin)%nat
  ∧ (h' = h ∨ ∃ o, h' = step h o).
Proof.
  unfold turn. intros H. read_line H.
  repeat case_decide.
  - do 3 read_line H. destruct (py_int line2) as [age|]; simpl in H; [|done].
    do 2 read_line H. injection H as <- <- <-. split; [simpl; lia|].
    right. by eexists (CreateUser _ _ _ _ _ _).
  - injection H as <- <- <-. split; [simpl; lia | by left].
  - read_line H. injection H as <- <- <-. split; [simpl; lia | by left].
  - do 5 read_line H.
    destruct (menu_update_data py_int _ _ _ _) as [upd|]; simpl in H; [|done].
    injection H as <- <- <-. split; [simpl; lia|].
    right. by eexists (UpdateUser _ _ _ _).
  - read_line H. injection H as <- <- <-. split; [simpl; lia|].
    right. by eexists (DeleteUser _).
  - read_line H. injection H as <- <- <-. split; [simpl; lia|].
    case_decide; [right; by exists DeleteAllUsers | by left].
  - injection H as <- <- <-. split; [simpl; lia | by left].
  - injection H as <- <- <-. split; [simpl; lia | by left].
  - injection H as <- <- <-. split; [simpl; lia | by left].
Qed.

Lemma loop_result fuel envs n h stdin :
  (length stdin < fuel)%nat →
  ∃ e h' ops, loop fuel py_int envs n h stdin = Some (e, h') ∧ h' = run h ops.
Proof.
  revert n h stdin. induction fuel as [|fuel IH]; intros n h stdin Hlen; [lia|].
  simpl. destruct (turn py_int (envs n) h stdin) as [[[go h1] stdin1]|] eqn:Hturn.
  - apply turn_spec in Hturn as [Hshort Hstore].
    assert (∃ ops1, h1 = run h ops1) as [ops1 ->].
    { destruct Hstore as [->|[o ->]]; [by exists [] | by exists [o]]. }
    destruct go.
    + destruct (IH (S n) (run h ops1) stdin1) as (e & h' & ops & Hloop & ->); [lia|].
      exists e, (run (run h ops1) ops), (ops1 ++ ops). split; [done|].
      unfold run. by rewrite foldl_app.
    + by exists Left, (run h ops1), ops1.
  - by exists Stopped, h, [].
Qed.

Lemma loop_more_fuel fuel fuel' envs n h stdin :
  (length stdin < fuel)%nat → (length stdin < fuel')%nat →
  loop fuel py_int envs n h stdin = loop fuel' py_int envs n h stdin.
Proof.
  revert fuel' n h stdin. induction fuel as [|fuel IH];
    intros [|fuel'] n h stdin Hlen Hlen'; try lia.
  simpl. destruct (turn py_int (envs n) h stdin) as [[[go h1] stdin1]|] eqn:Hturn;
    [|done].
  destruct go; [|done]. apply turn_spec in Hturn as [Hshort _].
  apply IH; lia.
Qed.

(** X15: on any finite input the menu ends, by choice 0 or by an exception
  ([EOFError] once the lines are used up, [ValueError] on an age that is
  no number), and more turns than there are lines are never needed. *)
Theorem menu_session_ends (envs : nat → TurnEnv) (h : hash) (stdin : list string)
    (fuel : nat) :
  (length stdin < fuel)%nat →
  is_Some (session py_int envs h stdin)
  ∧ loop fuel py_int envs 0 h stdin = session py_int envs h stdin.
Proof.
  intros Hlen. unfold session. split.
  - destruct (loop_result (S (length stdin)) envs 0%nat h stdin) as (e & h' & _ & -> & _);
      [lia | by eexists].
  - apply loop_more_fuel; lia.
Qed.

(** X16: whatever is typed, a session that starts on a hash with one
  record per email and every field the [@id] of its record ends on such a
  hash: the menu cannot produce two users with one email. *)
Theorem menu_session_keeps_unique_emails (envs : nat → TurnEnv) (h h' : hash)
    (stdin : list string) (e : ending) :
  wf h → NoDup (redis_emails h) →
  session py_int envs h stdin = Some (e, h') →
  wf h' ∧ NoDup (redis_emails h').
Proof.
  intros Hwf Hnd Hs. unfold session in Hs.
  destruct (loop_result (S (length stdin)) envs 0%nat h stdin)
    as (e1 & h1 & ops & Hloop & ->); [lia|].
  rewrite Hloop in Hs. injection Hs as _ <-.
  by apply redis_run_invariant.
Qed.


End MenuFacts.

Lemma menu_session_ends_witness :
  RedisMenu.loop 100 MenuSamples.int_of_sample MenuSamples.envs 0 [] MenuSamples.lines
  = RedisMenu.session MenuSamples.int_of_sample MenuSamples.envs [] MenuSamples.lines.
Proof.
  apply (menu_session_ends MenuSamples.int_of_sample MenuSamples.envs []
           MenuSamples.lines 100).
  simpl. lia.
Defined.

Lemma menu_session_keeps_witness :
  ∃ h', RedisMenu.session MenuSamples.int_of_sample MenuSamples.envs []
          MenuSamples.lines = Some (RedisMenu.Left, h')
        ∧ RedisSDFS.wf h' ∧ NoDup (Keeps.redis_emails h').
Proof.
  eexists. split; [vm_compute; reflexivity|].
  eapply (menu_session_keeps_unique_emails MenuSamples.int_of_sample MenuSamples.envs
            [] _ MenuSamples.lines RedisMenu.Left).
  - apply redis_wf_empty.
  - apply NoDup_nil_2.
  - vm_compute. reflexivity.
Defined.


(** ** Redis store: names of one or two words *)

Section TwoWords.
Import Keeps.

Lemma split_from_run (cur a s : string) :
  Forall (λ c, PyStr.isspace c = false) (list_ascii_of_string a) →
  PyStr.split_from cur (a +:+ s) = PyStr.split_from (cur +:+ a) s.
Proof.
  revert cur. induction a as [|c a IH]; intros cur Hall.
  - by rewrite append_empty_l, append_empty_r.
  - simpl in Hall. apply Forall_cons in Hall as [Hc Hall].
    rewrite append_cons. simpl. rewrite Hc, IH by done.
    by rewrite append_assoc.
Qed.

Lemma split_one_word (a : string) : word a → PyStr.split a = [a].
Proof.
  intros [Hne Hall]. unfold PyStr.split.
  rewrite <- (append_empty_r a) at 1. rewrite split_from_run by done.
  rewrite append_empty_l. simpl. by rewrite decide_False.
Qed.

Lemma split_two_words (a b : string) :
  word a → word b → PyStr.split (a +:+ " " +:+ b) = [a; b].
Proof.
  intros [Hne Hall] Hb. unfold PyStr.split.
  rewrite split_from_run by done. rewrite append_empty_l, append_cons. simpl.
  rewrite decide_False by done. rewrite append_empty_l.
  f_equal. by apply split_one_word.
Qed.

(** X18: a name made of one word, or of two words with one space between,
  is kept whole: the record created from it shows exactly the name that
  was given. *)
Theorem redis_short_name_round_trip (env : RedisSDFS.CreateEnv)
    (data : RedisSDFS.UserData) :
  (word (RedisSDFS.d_name data)
   ∨ ∃ a b, word a ∧ word b ∧ RedisSDFS.d_name data = a +:+ " " +:+ b) →
  ∃ rec, RedisSDFS._create_adobe_xdm_record env data = Some rec
         ∧ RedisSDFS.display_name rec = RedisSDFS.d_name data.
Proof.
  intros Hname.
  assert (∃ p parts, PyStr.split (RedisSDFS.d_name data) = p :: parts
                     ∧ first_and_last (p :: parts) = RedisSDFS.d_name data
                     ∧ RedisSDFS.d_name data ≠ "") as (p & parts & Hs & Hshown & Hne).
  { destruct Hname as [Hw|(a & b & Ha & Hb & ->)].
    - exists (RedisSDFS.d_name data), []. rewrite split_one_word by done.
      by destruct Hw.
    - exists a, [b]. rewrite split_two_words by done. split_and!; [done..|].
      destruct Ha as [Ha _]. by destruct a. }
  destruct (RedisSDFS._create_adobe_xdm_record env data) as [rec|] eqn:Hrec.
  - exists rec. split; [done|].
    rewrite (shown_created env data rec Hrec). by rewrite Hs.
  - exfalso. unfold RedisSDFS._create_adobe_xdm_record in Hrec.
    rewrite decide_False, Hs in Hrec by done. done.
Qed.

End TwoWords.

Lemma redis_short_name_witness :
  ∃ rec, RedisSDFS._create_adobe_xdm_record Samples.env1
           {| RedisSDFS.d_name := "Bob Ray"; RedisSDFS.d_email := "bob@x.com";
              RedisSDFS.d_age := 41; RedisSDFS.d_phone := "";
              RedisSDFS.d_address := "" |} = Some rec
         ∧ RedisSDFS.display_name rec = "Bob Ray".
Proof.
  apply (redis_short_name_round_trip Samples.env1
           {| RedisSDFS.d_name := "Bob Ray"; RedisSDFS.d_email := "bob@x.com";
              RedisSDFS.d_age := 41; RedisSDFS.d_phone := "";
              RedisSDFS.d_address := "" |}).
  right. exists "Bob", "Ray". split_and!; [| | reflexivity];
    (split; [discriminate | vm_compute; by repeat constructor]).
Defined.

(** ** Redis store: an id that is already in use *)

Section UsedId.
Import RedisSDFS Keeps.

(** X19: [create_user] never looks at the ids in the hash. When the
  generated id is already the field of a record, that record is
  overwritten: the count stays the same and a read by the email of the
  overwritten record finds nothing any more. *)
Theorem redis_create_over_used_id (env : CreateEnv) (h h' : hash)
    (name email : string) (age : Z) (phone address : option string)
    (id : string) (old : XdmRecord) :
  NoDup (redis_emails h) →
  create_user env h name email age phone address = (Some id, h') →
  hget h id = Some old →
  count h' = count h
  ∧ get_user_by_email h' (identity_email old) = None
  ∧ ∃ new, hget h' id = Some new ∧ identity_email new = email.
Proof.
  intros Hnd. unfold create_user.
  destruct (find_by_email h email) eqn:Hf; [done|]. unfold create.
  destruct (_create_adobe_xdm_record env _) as [rec|] eqn:Hrec; simpl; [|done].
  intros [= <- <-] Hold.
  apply create_record_fields in Hrec as (_ & He & _). simpl in He.
  unfold hget, hset, count, hlen, get_user_by_email in *.
  split_and!.
  - unfold aput_at. rewrite Hold. apply areplace_length.
  - apply find_by_email_None_emails in Hf.
    apply aget_Some_split in Hold as (l1 & l2 & -> & Hk).
    unfold aput_at. rewrite aget_middle by done. rewrite areplace_middle by done.
    apply find_by_email_None_emails.
    rewrite redis_emails_app, redis_emails_cons in *.
    apply NoDup_app in Hnd as (_ & H2 & [H3 _]%NoDup_cons).
    intros [Hin|[Heq|Hin]%elem_of_cons]%elem_of_app.
    + apply (H2 _ Hin). left.
    + apply Hf. rewrite <- He, <- Heq. apply elem_of_app. right. left.
    + done.
  - exists rec. split; [apply aget_aput_eq | done].
Qed.

End UsedId.

Lemma redis_create_over_used_id_witness :
  RedisSDFS.count
    (RedisSDFS.create_user Samples.env1 Samples.redis_ann_bob
       "Cat Doe" "cat@x.com" 23 None None).2
  = RedisSDFS.count Samples.redis_ann_bob
  ∧ RedisSDFS.get_user_by_email
      (RedisSDFS.create_user Samples.env1 Samples.redis_ann_bob
         "Cat Doe" "cat@x.com" 23 None None).2 "ann@x.com" = None.
Proof.
  edestruct (redis_create_over_used_id Samples.env1 Samples.redis_ann_bob
               (RedisSDFS.create_user Samples.env1 Samples.redis_ann_bob
                  "Cat Doe" "cat@x.com" 23 None None).2
               "Cat Doe" "cat@x.com" 23%Z None None "adobe_0123456789abcdef")
    as (Hcount & Hgone & _).
  - vm_compute. apply NoDup_cons. split; [|apply NoDup_singleton].
    intros [E|[]%elem_of_nil]%elem_of_cons. discriminate E.
  - reflexivity.
  - vm_compute. reflexivity.
  - split; [exact Hcount | exact Hgone].
Defined.

(** ** File store: a failed upload and the stored files *)

(** X7: an upload that fails under an id that is not tracked leaves on disk
  every file that a tracked entry points to as it was, so a later
  [download] of any tracked id copies what it would have copied before. *)
Theorem file_failed_upload_keeps_stored_files
    (uuid_hex : string) (now : Z) (o : FileSDFS.copy_outcome) (w : FileSDFS.World)
    (file_path : string) (md : option (gmap string string))
    (file_id : string) (info : FileSDFS.FileInfo) :
  FileSDFS.stored_by_create w →
  String.length (FileSDFS._generate_adobe_id uuid_hex) = 22%nat →
  FileSDFS.read_by_id w (FileSDFS._generate_adobe_id uuid_hex) = None →
  (FileSDFS.create uuid_hex now o w file_path md).1 = None →
  FileSDFS.read_by_id w file_id = Some info →
  FileSDFS.disk (FileSDFS.create uuid_hex now o w file_path md).2
    !! FileSDFS.stored_path info
  = FileSDFS.disk w !! FileSDFS.stored_path info
  ∧ ∀ o' dest,
      (FileSDFS.download o'
         (FileSDFS.create uuid_hex now o w file_path md).2 file_id dest).1
      = (FileSDFS.download o' w file_id dest).1.
Proof.
  intros Hby Hlen Hnew Hfail Hinfo.
  pose proof (failed_create_keeps_stored_files uuid_hex now o w file_path md file_id
                info Hby Hlen Hnew Hfail Hinfo) as Hdisk.
  split; [done|]. intros o' dest.
  assert (FileSDFS.files (FileSDFS.create uuid_hex now o w file_path md).2
          = FileSDFS.files w) as Hfiles.
  { revert Hfail. unfold FileSDFS.create.
    destruct (FileSDFS.disk w !! file_path); [|done].
    by destruct (FileSDFS.copy2 _ _ _ _) as [[|] d']. }
  unfold FileSDFS.download, FileSDFS.read_by_id in *. rewrite Hfiles, Hinfo.
  unfold FileSDFS.copy2. rewrite Hdisk.
  destruct (FileSDFS.disk w !! FileSDFS.stored_path info); [|done].
  case_decide; [done|]. by destruct o' as [|[n|]].
Qed.

Lemma file_failed_upload_witness :
  FileSDFS.disk
    (FileSDFS.create "fedcba9876543210fedcba9876543210" 200
       (FileSDFS.CopyFailed (Some 4%nat)) Samples.files_report
       "/home/u/report.txt" None).2
    !! "adobe_sdfs_storage/adobe_0123456789abcdef_report.txt"
  = FileSDFS.disk Samples.files_report
      !! "adobe_sdfs_storage/adobe_0123456789abcdef_report.txt".
Proof.
  edestruct (FileSDFS.read_by_id Samples.files_report Samples.report_id) as [info|] eqn:E;
    [|discriminate E].
  pose proof (file_failed_upload_keeps_stored_files
                "fedcba9876543210fedcba9876543210" 200%Z
                (FileSDFS.CopyFailed (Some 4%nat)) Samples.files_report
                "/home/u/report.txt" None Samples.report_id info
                files_report_stored_by_create eq_refl eq_refl eq_refl E) as [H _].
  vm_compute in E. injection E as <-. exact H.
Defined.
